(** * go.soap: flattening of SOAP 1.1 multiRef documents

    A shallow embedding of [element.go] and [soap.go] and the properties
    of the flattening engine.

    Conventions of the embedding.
    - A Go [string] and a Go [[]byte] are both a [string] (a sequence of
      8-bit characters); a nil slice is the empty sequence, as [len(nil)]
      is 0 and the code only ever tests lengths.
    - A Go result [(v, err)] is a pair whose second component is
      [option error]; [None] is a nil error.
    - [xml.Decoder] is an external collaborator.  The code observes a
      decoder only through successive calls of [RawToken], so a decoder is
      the finite sequence of tokens it will still deliver followed by the
      error it ends with ([io.EOF] on a clean end of input).  How a byte
      buffer is cut into tokens is a parameter of the development
      ([NewDecoder]); [GoXML.NewDecoder] is a model of it for plain ASCII
      documents, used to run the code on concrete inputs.
    - Executing one of the templates of [xmlTmpl] into a [bytes.Buffer]
      cannot fail, and neither can [xml.EscapeText] or [Buffer.Write];
      these error branches of the source are unreachable and the template
      functions below return the text only.
    - Recursion that follows the decoder or the content of elements takes
      a fuel argument; [None] means the fuel ran out. *)

From Stdlib Require Import String Ascii List Arith NArith Lia Bool.
From stdpp Require Import base option gmap strings list fin_maps.
Import ListNotations.
Local Open Scope string_scope.
Local Open Scope list_scope.

(** ** encoding/xml: tokens *)

Module xml.

Record Name := mkName { Space : string; Local : string }.

Record Attr := mkAttr { AName : Name; Value : string }.

Record StartElement := mkStart { SName : Name; SAttr : list Attr }.

Inductive Token :=
| TStartElement (s : StartElement)
| TEndElement (n : Name)
| TCharData (s : string)
| TComment (s : string)
| TProcInst (target inst : string)
| TDirective (s : string).

End xml.

Inductive error :=
| io_EOF
| SyntaxError (msg : string)
| errorString (msg : string).

#[global] Instance Name_eq_dec : EqDecision xml.Name.
Proof. solve_decision. Defined.

#[global] Instance Attr_eq_dec : EqDecision xml.Attr.
Proof. solve_decision. Defined.

#[global] Instance StartElement_eq_dec : EqDecision xml.StartElement.
Proof. solve_decision. Defined.

#[global] Instance error_eq_dec : EqDecision error.
Proof. solve_decision. Defined.

(** The state of an [xml.Decoder], as [RawToken] lets the caller see it. *)
Record Decoder := mkDecoder { pending : list xml.Token; final : error }.

(** [p.RawToken()]: the next token, or the final error (which is sticky). *)
Definition RawToken (p : Decoder) : Decoder * (xml.Token + error) :=
  match pending p with
  | tok :: rest => (mkDecoder rest (final p), inl tok)
  | [] => (p, inr (final p))
  end.

(** ** net/http: what [NewRequest] uses

    [http.NewRequest] and [url.Parse] are external collaborators.  A
    request is the record of the fields the code sets; parsing the URL is
    a parameter.  [Header.Set] stores the value under the canonical form
    of the key, as [textproto.CanonicalMIMEHeaderKey] computes it. *)

Definition code (c : ascii) : nat := nat_of_ascii c.

Definition between (lo hi : nat) (c : ascii) : bool :=
  Nat.leb lo (code c) && Nat.leb (code c) hi.

Module http.

(** [httpguts.IsTokenRune], the bytes allowed in a header field name and
    in a method. *)
Definition isToken (c : ascii) : bool :=
  between 48 57 c || between 65 90 c || between 97 122 c
  || existsb (Nat.eqb (code c)) [33; 35; 36; 37; 38; 39; 42; 43; 45; 46; 94; 95; 96; 124; 126].

Fixpoint allToken (s : string) : bool :=
  match s with
  | String c r => isToken c && allToken r
  | EmptyString => true
  end.

(** The second loop of [canonicalMIMEHeaderKey]: upper case for the first
    letter and after each dash, lower case elsewhere. *)
Fixpoint canonical_loop (upper : bool) (s : string) : string :=
  match s with
  | String c r =>
      let c' :=
        if upper && between 97 122 c then ascii_of_nat (code c - 32)
        else if negb upper && between 65 90 c then ascii_of_nat (code c + 32)
        else c in
      String c' (canonical_loop (Nat.eqb (code c') 45) r)
  | EmptyString => EmptyString
  end.

(** A key with a byte that is not a token byte is returned unchanged. *)
Definition CanonicalMIMEHeaderKey (s : string) : string :=
  if allToken s then canonical_loop true s else s.

Definition Header := gmap string (list string).

Definition Header_Set (h : Header) (key value : string) : Header :=
  <[CanonicalMIMEHeaderKey key := [value]]> h.

Definition Header_Get (h : Header) (key : string) : string :=
  match h !! CanonicalMIMEHeaderKey key with
  | Some (v :: _) => v
  | _ => ""
  end.

Record Request (URL Body : Type) := mkRequest {
  Method : string;
  URL_ : URL;
  Header_ : Header;
  Body_ : Body
}.
Arguments mkRequest {URL Body}. Arguments Method {URL Body}.
Arguments URL_ {URL Body}. Arguments Header_ {URL Body}.
Arguments Body_ {URL Body}.

Section NewRequest.

Variables URL Body : Type.

(** [url.Parse] *)
Variable url_Parse : string -> URL + error.

(** [http.NewRequest(method, url, body)]: an empty method means GET, the
    method must be a token, and the URL must parse. *)
Definition NewRequest (method url : string) (body : Body)
    : option (Request URL Body) * option error :=
  let method := if decide (method = "") then "GET" else method in
  if allToken method then
    match url_Parse url with
    | inl u => (Some (mkRequest method u ∅ body), None)
    | inr err => (None, Some err)
    end
  else (None, Some (errorString ("net/http: invalid method " +:+ method))).

End NewRequest.

End http.

(** ** Package soap *)

Module soap.

(** *** element.go *)

Record element := mkElement { Start : xml.StartElement; Data : string }.

Definition Name (el : element) : xml.Name := xml.SName (Start el).
Definition Attr (el : element) : list xml.Attr := xml.SAttr (Start el).

#[global] Instance element_eq_dec : EqDecision element.
Proof. solve_decision. Defined.

(** The double quote character, code 34. *)
Definition dquote : string := Eval cbv in String (ascii_of_nat 34) EmptyString.

(** The templates of [xmlTmpl]. *)

(** [{{define "Name"}}{{if .Name.Space}}{{.Name.Space}}:{{end}}{{.Name.Local}}{{end}}] *)
Definition tmplName (n : xml.Name) : string :=
  (if decide (xml.Space n = "") then "" else xml.Space n +:+ ":") +:+ xml.Local n.

(** [{{define "Attr"}}{{range .Attr}} {{template "Name" .}}="{{.Value}}"{{end}}{{end}}] *)
Fixpoint tmplAttr (l : list xml.Attr) : string :=
  match l with
  | [] => ""
  | a :: l' =>
      " " +:+ tmplName (xml.AName a) +:+ "=" +:+ dquote +:+ xml.Value a +:+ dquote
          +:+ tmplAttr l'
  end.

(** [{{define "StartTag"}}<{{template "Name" .}}{{template "Attr" .}}>{{end}}] *)
Definition StartTag (s : xml.StartElement) : string :=
  "<" +:+ tmplName (xml.SName s) +:+ tmplAttr (xml.SAttr s) +:+ ">".

(** [{{define "EndTag"}}</{{template "Name" .}}>{{end}}] *)
Definition EndTag (s : xml.StartElement) : string :=
  "</" +:+ tmplName (xml.SName s) +:+ ">".

(** [{{define "EmptyTag"}}<{{template "Name" .}}{{template "Attr" .}} />{{end}}] *)
Definition EmptyTag (s : xml.StartElement) : string :=
  "<" +:+ tmplName (xml.SName s) +:+ tmplAttr (xml.SAttr s) +:+ " />".

(** [{{define "Element"}}{{if .Data}}...{{else}}{{template "EmptyTag" .}}{{end}}{{end}}];
    [{{if .Data}}] holds when the slice is not empty. *)
Definition marshal (el : element) : string :=
  if decide (Data el = "") then EmptyTag (Start el)
  else StartTag (Start el) +:+ Data el +:+ EndTag (Start el).

Section Soap.

(** [xml.NewDecoder(bytes.NewReader(data))] *)
Variable NewDecoder : string -> Decoder.

(** [xml.EscapeText], as the text it writes. *)
Variable EscapeText : string -> string.

(** [elementData] reads up to the end tag that closes [start] and appends
    the markup of everything in between to [buf].  It returns the decoder
    and the buffer as it leaves them, and its error. *)
Fixpoint elementData (fuel : nat) (p : Decoder) (start : xml.StartElement)
    (buf : string) : option (Decoder * string * option error) :=
  match fuel with
  | O => None
  | S fuel' =>
      match RawToken p with
      | (p, inl (xml.TStartElement tok)) =>
          match elementData fuel' p tok (buf +:+ StartTag tok) with
          | None => None
          | Some (p, buf, Some err) => Some (p, buf, Some err)
          | Some (p, buf, None) => elementData fuel' p start (buf +:+ EndTag tok)
          end
      | (p, inl (xml.TCharData tok)) =>
          elementData fuel' p start (buf +:+ EscapeText tok)
      | (p, inl (xml.TEndElement n)) =>
          if decide (n = xml.SName start) then Some (p, buf, None)
          else Some (p, buf,
                     Some (errorString ("Unexpected end element " +:+ xml.Local n)))
      | (p, inl _) => elementData fuel' p start buf
      | (p, inr err) => Some (p, buf, Some err)
      end
  end.

(** The loop of [elements]; [elem] is the slice built so far. *)
Fixpoint elements_loop (fuel : nat) (p : Decoder) (elem : list element)
    : option (list element * option error) :=
  match fuel with
  | O => None
  | S fuel' =>
      match RawToken p with
      | (p, inl (xml.TStartElement tok)) =>
          match elementData fuel' p tok "" with
          | None => None
          | Some (_, _, Some err) => Some ([], Some err)
          | Some (p, buf, None) =>
              elements_loop fuel' p (elem ++ [mkElement tok buf])
          end
      | (p, inl _) => elements_loop fuel' p elem
      | (_, inr err) =>
          if decide (err = io_EOF) then Some (elem, None) else Some ([], Some err)
      end
  end.

(** [elements]: the top-level elements of [data].  One unit of fuel per
    token and one more is enough ([elements_loop_total] below), so the
    default is never taken. *)
Definition elements (data : string) : list element * option error :=
  let p := NewDecoder data in
  default ([], Some (final p)) (elements_loop (S (length (pending p))) p []).

Definition Children (el : element) : list element :=
  match elements (Data el) with
  | (_, Some _) => []
  | (elem, None) => elem
  end.

Fixpoint findAttr (list : list xml.Attr) (space name : string) : option xml.Attr :=
  match list with
  | [] => None
  | v :: rest =>
      if decide (xml.Local (xml.AName v) = name
                 /\ (space = "" \/ space = xml.Space (xml.AName v)))
      then Some v else findAttr rest space name
  end.

Definition findHref (list : list xml.Attr) : string * bool :=
  match findAttr list "" "href" with
  | Some attr =>
      match xml.Value attr with
      | String c rest =>
          if decide (1 < String.length (xml.Value attr) /\ c = "#"%char)
          then (rest, true) else ("", false)
      | EmptyString => ("", false)
      end
  | None => ("", false)
  end.

Definition findId (list : list xml.Attr) : string * bool :=
  match findAttr list "" "id" with
  | Some attr => (xml.Value attr, true)
  | None => ("", false)
  end.

(** The reference index. *)

(** [for _, el := range els { if err := walk(el, mref); err != nil { return err } }].
    The map is shared and updated in place, so it is handed on also when an
    error stops the loop. *)
Fixpoint walk_range
    (walk : element -> gmap string element -> option (gmap string element * option error))
    (els : list element) (mref : gmap string element)
    : option (gmap string element * option error) :=
  match els with
  | [] => Some (mref, None)
  | el :: rest =>
      match walk el mref with
      | None => None
      | Some (mref, Some err) => Some (mref, Some err)
      | Some (mref, None) => walk_range walk rest mref
      end
  end.

Fixpoint walkMultiRef (fuel : nat) (root : element) (mref : gmap string element)
    : option (gmap string element * option error) :=
  match fuel with
  | O => None
  | S fuel' =>
      let children := Children root in
      match walk_range (walkMultiRef fuel') children mref with
      | None => None
      | Some (mref, Some err) => Some (mref, Some err)
      | Some (mref, None) =>
          match findId (Attr root) with
          | (id, true) => Some (<[id := root]> mref, None)
          | (_, false) => Some (mref, None)
          end
      end
  end.

Definition buildMRef (fuel : nat) (data : string)
    : option (gmap string element * option error) :=
  match elements data with
  | (_, Some err) => Some (∅, Some err)
  | (elem, None) =>
      match walk_range (walkMultiRef fuel) elem ∅ with
      | None => None
      | Some (_, Some err) => Some (∅, Some err)
      | Some (mref, None) => Some (mref, None)
      end
  end.

(** *** soap.go *)

(** [for _, el := range els { data, err := flatten(el); ...; buf.Write(data) }] *)
Fixpoint flatten_range (flatten : element -> option (string * option error))
    (els : list element) (buf : string) : option (string * option error) :=
  match els with
  | [] => Some (buf, None)
  | el :: rest =>
      match flatten el with
      | None => None
      | Some (_, Some err) => Some ("", Some err)
      | Some (data, None) => flatten_range flatten rest (buf +:+ data)
      end
  end.

Fixpoint flattenXML (fuel : nat) (root : element) (mref : gmap string element)
    : option (string * option error) :=
  match fuel with
  | O => None
  | S fuel' =>
      if decide (xml.Local (Name root) = "multiRef") then Some ("", None)
      else
        let root :=
          match findHref (Attr root) with
          | (href, true) =>
              match mref !! href with
              | Some el => mkElement (Start root) (Data el)
              | None => root
              end
          | (_, false) => root
          end in
        let children := Children root in
        if decide (0 < length children) then
          match flatten_range (fun el => flattenXML fuel' el mref) children "" with
          | None => None
          | Some (_, Some err) => Some ("", Some err)
          | Some (accum, None) => Some (marshal (mkElement (Start root) accum), None)
          end
        else Some (marshal root, None)
  end.

Definition Flatten (fuel : nat) (data : string) : option (string * option error) :=
  match buildMRef fuel data with
  | None => None
  | Some (_, Some err) => Some ("", Some err)
  | Some (mref, None) =>
      match elements data with
      | (_, Some err) => Some ("", Some err)
      | (elem, None) =>
          match flatten_range (fun el => flattenXML fuel el mref) elem "" with
          | None => None
          | Some (_, Some err) => Some ("", Some err)
          | Some (buf, None) => Some (buf, None)
          end
      end
  end.

(** [xml.Unmarshal(out, v)]: the value it leaves in [v] and its error. *)
Variable V : Type.
Variable xml_Unmarshal : string -> V -> V * option error.

Definition Unmarshal (fuel : nat) (data : string) (v : V) : option (V * option error) :=
  match Flatten fuel data with
  | None => None
  | Some (_, Some err) => Some (v, Some err)
  | Some (out, None) => Some (xml_Unmarshal out v)
  end.

End Soap.

Section NewRequest.

Variables URL Body : Type.
Variable url_Parse : string -> URL + error.

(** [req.Header.Set(key, value)] on the request the pointer refers to. *)
Definition req_Header_Set (req : http.Request URL Body) (key value : string)
    : http.Request URL Body :=
  http.mkRequest (http.Method req) (http.URL_ req)
    (http.Header_Set (http.Header_ req) key value) (http.Body_ req).

Definition NewRequest (url : string) (body : Body)
    : option (http.Request URL Body) * option error :=
  match http.NewRequest URL Body url_Parse "POST" url body with
  | (_, Some err) => (None, Some err)
  | (None, None) => (None, None)
  | (Some req, None) =>
      let req := req_Header_Set req "SOAPAction" "" in
      let req := req_Header_Set req "Content-Type" "text/xml" in
      let req := req_Header_Set req "charset" "utf-8" in
      (Some req, None)
  end.

End NewRequest.

(** A SOAP 1.1 Fault.  A Go [error] can hold a [*Fault] as well as the
    errors of the libraries, so what [Parse] returns as its error is an
    [Error]. *)
Record Fault := mkFault {
  Code : string;
  FString : string;
  Actor : string;
  Detail : string
}.

Inductive Error :=
| failure (err : error)
| fault (f : Fault).

(** [(f *Fault) Error()]; [None] is the nil pointer. *)
Definition Fault_Error (f : option Fault) : string :=
  match f with
  | None => ""
  | Some f => FString f
  end.

Section Parse.

Variable NewDecoder : string -> Decoder.
Variable EscapeText : string -> string.
Variable V : Type.
Variable xml_Unmarshal : string -> V -> V * option error.

(** [xml.Unmarshal(buf.Bytes(), &msg)] for the envelope [msg] of [Parse]:
    the [msg.Body.Fault] it leaves ([None] for nil) and its error. *)
Variable xml_Unmarshal_msg : string -> option Fault * option error.

(** [Parse].  The body of the response is what [io.Copy] gets out of it:
    the bytes copied into [buf] and the error of the copy. *)
Definition Parse (fuel : nat) (body : string * option error) (v : V)
    : option (V * option Error) :=
  match body with
  | (_, Some err) => Some (v, Some (failure err))
  | (buf, None) =>
      match xml_Unmarshal_msg buf with
      | (_, Some err) => Some (v, Some (failure err))
      | (Some f, None) => Some (v, Some (fault f))
      | (None, None) =>
          match Unmarshal NewDecoder EscapeText V xml_Unmarshal fuel buf v with
          | None => None
          | Some (v, err) => Some (v, failure <$> err)
          end
      end
  end.

End Parse.

End soap.

Import soap.

(** ** Notions the properties are stated with *)

(** *** Well-matched tags

    [first_mismatch open toks] scans [toks] with the names of the start
    tags that are open, innermost first, and returns the name of the first
    end tag that differs from the innermost open start tag.  An end tag met
    while nothing is open closes nothing and is skipped, as [elements]
    skips it. *)
Fixpoint first_mismatch (open : list xml.Name) (toks : list xml.Token)
    : option xml.Name :=
  match toks with
  | [] => None
  | xml.TStartElement s :: rest => first_mismatch (xml.SName s :: open) rest
  | xml.TEndElement n :: rest =>
      match open with
      | [] => first_mismatch [] rest
      | top :: open' =>
          if decide (n = top) then first_mismatch open' rest else Some n
      end
  | _ :: rest => first_mismatch open rest
  end.

(** The error [elementData] makes for the end tag [n]. *)
Definition unexpectedEnd (n : xml.Name) : error :=
  errorString ("Unexpected end element " +:+ xml.Local n).

(** *** The order of the index pass *)

(** What recording one element does to the index. *)
Definition record (mref : gmap string element) (el : element) : gmap string element :=
  match findId (Attr el) with
  | (id, true) => <[id := el]> mref
  | (_, false) => mref
  end.

(** The last element of a visiting order that carries the id [id]. *)
Definition last_with_id (id : string) (order : list element) : option element :=
  last (filter (fun el => findId (Attr el) = (id, true)) order).

(** *** The substitution step *)

(** The element after the href step of [flattenXML]: the content is the
    referenced element's when the href resolves, the tag is the element's
    own. *)
Definition substituted (mref : gmap string element) (root : element) : element :=
  match findHref (Attr root) with
  | (href, true) =>
      match mref !! href with
      | Some el => mkElement (Start root) (Data el)
      | None => root
      end
  | (_, false) => root
  end.

(** [joined l] is the concatenation of the texts of [l]. *)
Definition joined (l : list string) : string := fold_right String.append "" l.

(** *** Documents as trees *)

#[warnings="-register-all"]
Inductive node :=
| NText (s : string)
| NOther (tok : xml.Token)
| NElem (start : xml.StartElement) (kids : list node).

(** The tokens [elementData] skips without writing anything. *)
Definition skipped (tok : xml.Token) : bool :=
  match tok with
  | xml.TComment _ | xml.TProcInst _ _ | xml.TDirective _ => true
  | _ => false
  end.

(** The token stream of a tree: each element is opened and closed by its
    own name. *)
Fixpoint tokens (t : node) : list xml.Token :=
  match t with
  | NText s => [xml.TCharData s]
  | NOther tok => [tok]
  | NElem start kids =>
      xml.TStartElement start :: flat_map tokens kids ++ [xml.TEndElement (xml.SName start)]
  end.

Fixpoint depth (t : node) : nat :=
  match t with
  | NElem _ kids => S (list_max (map depth kids))
  | _ => 0
  end.

(** The element nodes of a tree in post-order: those of the children, in
    order, then the node itself. *)
Fixpoint postnodes (t : node) : list node :=
  match t with
  | NElem _ kids => flat_map postnodes kids ++ [t]
  | _ => []
  end.

Definition is_elem (t : node) : bool :=
  match t with NElem _ _ => true | _ => false end.

(** The names of the start tags that are open after [toks], innermost
    first, when scanning starts with [open]; the scan stops at an end tag
    that does not match. *)
Fixpoint still_open (open : list xml.Name) (toks : list xml.Token) : list xml.Name :=
  match toks with
  | [] => open
  | xml.TStartElement s :: rest => still_open (xml.SName s :: open) rest
  | xml.TEndElement n :: rest =>
      match open with
      | [] => still_open [] rest
      | top :: open' => if decide (n = top) then still_open open' rest else open
      end
  | _ :: rest => still_open open rest
  end.

Definition is_start (tok : xml.Token) : bool :=
  match tok with xml.TStartElement _ => true | _ => false end.

(** A tree whose nodes of the third kind are tokens that [elementData]
    skips. *)
Fixpoint wellformed (t : node) : bool :=
  match t with
  | NText _ => true
  | NOther tok => skipped tok
  | NElem _ kids => forallb wellformed kids
  end.

(** The test of [findAttr]. *)
Definition attr_matches (space name : string) (v : xml.Attr) : Prop :=
  xml.Local (xml.AName v) = name /\ (space = "" \/ space = xml.Space (xml.AName v)).

(** A tree without what the substitution pass drops anyway: in an element
    that has child elements, everything between them. *)
Definition strip_kids (strip : node -> node) (kids : list node) : list node :=
  if forallb (fun k => negb (is_elem k)) kids then kids
  else omap (fun k => if is_elem k then Some (strip k) else None) kids.

Fixpoint strip (t : node) : node :=
  match t with
  | NElem start kids => NElem start (strip_kids strip kids)
  | _ => t
  end.

Definition strip_forest (f : list node) : list node :=
  omap (fun k => if is_elem k then Some (strip k) else None) f.

(** Every placeholder that the substitution pass can reach in the tree
    without going through a substitution refers, if its id is in the index,
    to an id of rank below [b]. *)
Fixpoint ranked (idx : gmap string (list node)) (rank : string -> nat) (b : nat)
    (t : node) : bool :=
  match t with
  | NElem start kids =>
      if decide (xml.Local (xml.SName start) = "multiRef") then true
      else
        match findHref (xml.SAttr start) with
        | (href, true) =>
            match idx !! href with
            | Some _ => Nat.ltb (rank href) b
            | None => forallb (ranked idx rank b) kids
            end
        | (_, false) => forallb (ranked idx rank b) kids
        end
  | _ => true
  end.

(** References only go down in rank: what the index binds to an id refers
    to ids of lower rank only. *)
Definition index_ranked (idx : gmap string (list node)) (rank : string -> nat) : bool :=
  forallb (fun b => forallb (ranked idx rank (rank b.1)) b.2) (map_to_list idx).

Section Documents.

Variable NewDecoder : string -> Decoder.
Variable EscapeText : string -> string.

(** Post-order over the elements that [Children] derives: the orders of
    the children one after the other, then the element itself. *)
Fixpoint visitAll (visit : element -> option (list element)) (els : list element)
    : option (list element) :=
  match els with
  | [] => Some []
  | el :: rest =>
      match visit el, visitAll visit rest with
      | Some l, Some ls => Some (l ++ ls)
      | _, _ => None
      end
  end.

Fixpoint visitOrder (fuel : nat) (root : element) : option (list element) :=
  match fuel with
  | O => None
  | S fuel' =>
      match visitAll (visitOrder fuel') (Children NewDecoder EscapeText root) with
      | Some l => Some (l ++ [root])
      | None => None
      end
  end.

(** Every element of [cycle] is flattened by flattening its children, and
    one of these is in [cycle] again. *)
Definition closed_cycle (mref : gmap string element) (cycle : list element) : bool :=
  forallb
    (fun e =>
       negb (bool_decide (xml.Local (Name e) = "multiRef"))
       && existsb (fun c => bool_decide (c ∈ cycle))
            (Children NewDecoder EscapeText (substituted mref e)))
    cycle.

(** The markup [elementData] accumulates for a tree. *)
Fixpoint markup (t : node) : string :=
  match t with
  | NText s => EscapeText s
  | NOther _ => ""
  | NElem start kids =>
      StartTag start +:+ joined (map markup kids) +:+ EndTag start
  end.

(** The element [elements] makes of a tree, if it is an element. *)
Definition asElement (t : node) : option element :=
  match t with
  | NElem start kids => Some (mkElement start (joined (map markup kids)))
  | _ => None
  end.

Definition elems (f : list node) : list element := omap asElement f.

(** The elements of a tree in post-order, as elements. *)
Definition postorder (t : node) : list element := omap asElement (postnodes t).

(** The index of a sequence of trees: recording the element nodes in
    post-order binds an id to the children of the last one that carries
    it. *)
Definition record_node (idx : gmap string (list node)) (t : node)
    : gmap string (list node) :=
  match t with
  | NElem start kids =>
      match findId (xml.SAttr start) with
      | (id, true) => <[id := kids]> idx
      | (_, false) => idx
      end
  | _ => idx
  end.

Definition tree_index (f : list node) : gmap string (list node) :=
  foldl record_node ∅ (flat_map postnodes f).

(** Flattening on trees.  An element named multiRef is left out; a
    placeholder whose id is in the index takes the children bound to the
    id and keeps its own start tag; an element whose children (its own or
    the ones it took) include no element keeps their markup; otherwise the
    content is the flattened child elements and nothing else.  Character
    data and skipped tokens contribute nothing. *)
Fixpoint flat_all (flat1 : node -> option string) (kids : list node) : option string :=
  match kids with
  | [] => Some ""
  | k :: rest =>
      match flat1 k, flat_all flat1 rest with
      | Some out, Some outs => Some (out +:+ outs)
      | _, _ => None
      end
  end.

Fixpoint flat (fuel : nat) (idx : gmap string (list node)) (t : node) {struct fuel}
    : option string :=
  match t with
  | NElem start kids =>
      match fuel with
      | O => None
      | S fuel' =>
          if decide (xml.Local (xml.SName start) = "multiRef") then Some ""
          else
            let kids' :=
              match findHref (xml.SAttr start) with
              | (href, true) => default kids (idx !! href)
              | (_, false) => kids
              end in
            if forallb (fun k => negb (is_elem k)) kids'
            then Some (marshal (mkElement start (joined (map markup kids'))))
            else
              (fun body => marshal (mkElement start body))
                <$> flat_all (flat fuel' idx) kids'
      end
  | _ => Some ""
  end.

(** The decoder reads the child elements of every element of the tree
    back from the content stored for it. *)
Fixpoint reparses (t : node) : bool :=
  match t with
  | NText _ => true
  | NOther tok => skipped tok
  | NElem start kids =>
      bool_decide (Children NewDecoder EscapeText
                     (mkElement start (joined (map markup kids))) = elems kids)
      && forallb reparses kids
  end.

(** The index on elements and the index on trees bind the same ids, to
    the same content. *)
Definition index_agrees (mref : gmap string element) (idx : gmap string (list node))
    : Prop :=
  forall id,
    Data <$> (mref !! id) = (fun kids => joined (map markup kids)) <$> (idx !! id).

(** What the index on trees binds is read back by the decoder. *)
Definition index_reparses (idx : gmap string (list node)) : Prop :=
  forall id kids,
    idx !! id = Some kids ->
    (forall start,
       Children NewDecoder EscapeText (mkElement start (joined (map markup kids)))
       = elems kids)
    /\ forallb reparses kids = true.



End Documents.

(** ** A model of the decoder for plain ASCII documents

    [GoXML.NewDecoder] follows [Decoder.rawToken] of encoding/xml (strict
    mode, as [xml.NewDecoder] sets it) on the fragment made of start tags
    with quoted attributes, end tags, empty-element tags, character data
    with the predefined and the numeric character references, and
    comments.  Processing instructions, CDATA sections, directives, bytes
    above 127 and references to characters above 127 are outside the
    fragment: the model then ends the token stream with [unmodelled].  The general theorems below do not depend on
    this model; it is used to run the code on concrete documents. *)

Module GoXML.

Definition unmodelled : error :=
  errorString "GoXML: input outside the modelled fragment".

Definition unexpectedEOF : error := SyntaxError "unexpected EOF".

Definition eqc (c d : ascii) : bool := Ascii.eqb c d.

Definition isLetter (c : ascii) : bool := between 65 90 c || between 97 122 c.
Definition isDigit (c : ascii) : bool := between 48 57 c.

Definition isNameByte (c : ascii) : bool :=
  isLetter c || isDigit c || eqc c "_" || eqc c ":" || eqc c "." || eqc c "-".

Definition isSpace (c : ascii) : bool :=
  Nat.eqb (code c) 32 || Nat.eqb (code c) 13 || Nat.eqb (code c) 10
  || Nat.eqb (code c) 9.

(** [isInCharacterRange] on one-byte runes. *)
Definition inCharacterRange (c : ascii) : bool :=
  Nat.eqb (code c) 9 || Nat.eqb (code c) 10 || Nat.eqb (code c) 13
  || between 32 127 c.

Definition str (c : ascii) : string := String c EmptyString.

Definition newline : string := Eval cbv in str (ascii_of_nat 10).

(** [d.space()] *)
Fixpoint space (s : string) : string :=
  match s with
  | String c r => if isSpace c then space r else s
  | EmptyString => s
  end.

Fixpoint readNameBytes (s : string) : string * string :=
  match s with
  | String c r =>
      if isNameByte c then let '(n, rest) := readNameBytes r in (String c n, rest)
      else ("", s)
  | EmptyString => ("", "")
  end.

(** The three ways a name scanner comes back: a name and the rest of the
    input; [ok = false] with no error recorded; [ok = false] with [d.err]. *)
Inductive scanned (A : Type) :=
| Got (a : A) (rest : string)
| NotOk
| Failed (e : error).
Arguments Got {A}. Arguments NotOk {A}. Arguments Failed {A}.

(** [d.readName()]: a name that runs into the end of input is an
    unexpected EOF. *)
Definition readName (s : string) : scanned string :=
  match s with
  | EmptyString => Failed unexpectedEOF
  | String c r =>
      if isNameByte c then
        match readNameBytes r with
        | (_, EmptyString) => Failed unexpectedEOF
        | (n, rest) => Got (String c n) rest
        end
      else NotOk
  end.

(** [isName] on ASCII: the scanner only lets name bytes through, so what
    is left to check is the first one. *)
Definition isName (n : string) : bool :=
  match n with
  | String c _ => isLetter c || eqc c "_" || eqc c ":"
  | EmptyString => false
  end.

(** [d.name()] *)
Definition name (s : string) : scanned string :=
  match readName s with
  | Got n rest =>
      if isName n then Got n rest else Failed (SyntaxError ("invalid XML name: " +:+ n))
  | r => r
  end.

Fixpoint countColon (s : string) : nat :=
  match s with
  | String c r => (if eqc c ":" then 1 else 0) + countColon r
  | EmptyString => 0
  end.

(** [strings.Cut(s, ":")] *)
Fixpoint cutColon (s : string) : option (string * string) :=
  match s with
  | String c r =>
      if eqc c ":" then Some ("", r)
      else match cutColon r with
           | Some (a, b) => Some (String c a, b)
           | None => None
           end
  | EmptyString => None
  end.

(** [d.nsname()] *)
Definition nsname (s : string) : scanned xml.Name :=
  match name s with
  | Got n rest =>
      if Nat.ltb 1 (countColon n) then NotOk
      else match cutColon n with
           | Some (String c sp, String c' lo) =>
               Got (xml.mkName (String c sp) (String c' lo)) rest
           | _ => Got (xml.mkName "" n) rest
           end
  | NotOk => NotOk
  | Failed e => Failed e
  end.

Definition digitVal (c : ascii) : option nat :=
  if isDigit c then Some (code c - 48)
  else if between 97 102 c then Some (code c - 87)
  else if between 65 70 c then Some (code c - 55)
  else None.

Fixpoint readDigits (base : nat) (s : string) : string * string :=
  match s with
  | String c r =>
      if isDigit c || (Nat.eqb base 16 && (between 97 102 c || between 65 70 c))
      then let '(n, rest) := readDigits base r in (String c n, rest)
      else ("", s)
  | EmptyString => ("", "")
  end.

Fixpoint parseUint (base : N) (acc : N) (s : string) : N :=
  match s with
  | String c r => parseUint base (acc * base + N.of_nat (default 0 (digitVal c))) r
  | EmptyString => acc
  end.

Definition invalidEntity (ent : string) (semicolon : bool) : error :=
  SyntaxError ("invalid character entity " +:+ ent
               +:+ (if semicolon then ";" else " (no semicolon)")).

(** The table [entity] of the predefined names. *)
Definition entityText (n : string) : option string :=
  if String.eqb n "lt" then Some "<"
  else if String.eqb n "gt" then Some ">"
  else if String.eqb n "amp" then Some "&"
  else if String.eqb n "apos" then Some "'"
  else if String.eqb n "quot" then Some dquote
  else None.

(** A numeric reference [&#...;] or [&#x...;]; [s] starts after the sign
    and the [x], [pre] is what was read so far.  A number above
    [unicode.MaxRune], which includes every number that [strconv.ParseUint]
    refuses for its size, is an invalid entity. *)
Definition numericRef (base : nat) (pre : string) (s : string)
    : (string * string) + error :=
  match readDigits base s with
  | (_, EmptyString) => inr unexpectedEOF
  | (ds, String c rest) =>
      if eqc c ";" then
        if String.eqb ds "" then inr (invalidEntity pre true)
        else
          let n := parseUint (N.of_nat base) 0 ds in
          if N.ltb n 128 then inl (str (ascii_of_N n), rest)
          else if N.leb n 1114111 then inr unmodelled
          else inr (invalidEntity (pre +:+ ds) true)
      else inr (invalidEntity (pre +:+ ds) false)
  end.

(** The part of [d.text] that reads a reference; [s] starts after the
    ampersand.  In strict mode an unknown reference is an error. *)
Definition reference (s : string) : (string * string) + error :=
  match s with
  | EmptyString => inr unexpectedEOF
  | String c r =>
      if eqc c "#" then
        match r with
        | EmptyString => inr unexpectedEOF
        | String x r' =>
            if eqc x "x" then
              match r' with
              | EmptyString => inr unexpectedEOF
              | _ => numericRef 16 "&#x" r'
              end
            else numericRef 10 "&#" r
        end
      else
        match readName s with
        | Failed e => inr e
        | NotOk =>
            if eqc c ";" then inr (invalidEntity "&" true)
            else inr (invalidEntity "&" false)
        | Got n EmptyString => inr unexpectedEOF
        | Got n (String c' rest) =>
            if eqc c' ";" then
              match (if isName n then entityText n else None) with
              | Some t => inl (t, rest)
              | None => inr (invalidEntity ("&" +:+ n) true)
              end
            else inr (invalidEntity ("&" +:+ n) false)
        end
  end.

Definition zero : ascii := Ascii.zero.

(** The loop of [d.text(quote, false)]; [quote] is [None] for -1.  The
    sequence that ends a CDATA section is refused in character data and
    allowed in a quoted attribute value. *)
Fixpoint text_loop (fuel : nat) (quote : option ascii) (b0 b1 : ascii)
    (acc s : string) : (string * string) + error :=
  match fuel with
  | O => inr unmodelled
  | S fuel' =>
      match s with
      | EmptyString => inl (acc, s)
      | String b r =>
          if bool_decide (quote = None) && eqc b0 "]" && eqc b1 "]" && eqc b ">" then
            inr (SyntaxError "unescaped ]]> not in CDATA section")
          else if eqc b "<" then
            match quote with
            | Some _ => inr (SyntaxError "unescaped < inside quoted string")
            | None => inl (acc, s)
            end
          else if match quote with Some q => eqc b q | None => false end then
            inl (acc, r)
          else if eqc b "&" then
            match reference r with
            | inl (t, rest) => text_loop fuel' quote zero zero (acc +:+ t) rest
            | inr e => inr e
            end
          else if Nat.eqb (code b) 13 then
            text_loop fuel' quote b1 b (acc +:+ newline) r
          else if Nat.eqb (code b1) 13 && Nat.eqb (code b) 10 then
            text_loop fuel' quote b1 b acc r
          else text_loop fuel' quote b1 b (acc +:+ str b) r
      end
  end.

Fixpoint allChars (f : ascii -> bool) (s : string) : bool :=
  match s with
  | String c r => f c && allChars f r
  | EmptyString => true
  end.

Fixpoint firstOutside (f : ascii -> bool) (s : string) : option ascii :=
  match s with
  | String c r => if f c then firstOutside f r else Some c
  | EmptyString => None
  end.

Definition hexDigit (letter : nat) (n : nat) : ascii :=
  if Nat.ltb n 10 then ascii_of_nat (48 + n) else ascii_of_nat (letter + (n - 10)).

(** [fmt.Sprintf("%U", r)] for a rune below 256: four upper-case
    hexadecimal digits after [U+]. *)
Definition formatU (c : ascii) : string :=
  "U+00" +:+ str (hexDigit 65 (code c / 16)) +:+ str (hexDigit 65 (code c mod 16)).

(** [d.text(quote, false)], with its final check of the characters: the
    first one outside the range of XML is reported. *)
Definition text (quote : option ascii) (s : string) : (string * string) + error :=
  match text_loop (S (String.length s)) quote zero zero "" s with
  | inl (data, rest) =>
      match firstOutside inCharacterRange data with
      | None => inl (data, rest)
      | Some c => inr (SyntaxError ("illegal character code " +:+ formatU c))
      end
  | inr e => inr e
  end.

(** The attribute loop of a start tag: the attributes, whether the tag is
    an empty-element tag, and the rest of the input. *)
Fixpoint attributes (fuel : nat) (s : string) (attr : list xml.Attr)
    : (list xml.Attr * bool * string) + error :=
  match fuel with
  | O => inr unmodelled
  | S fuel' =>
      match space s with
      | EmptyString => inr unexpectedEOF
      | String b r as s =>
          if eqc b "/" then
            match r with
            | EmptyString => inr unexpectedEOF
            | String b' r' =>
                if eqc b' ">" then inl (attr, true, r')
                else inr (SyntaxError "expected /> in element")
            end
          else if eqc b ">" then inl (attr, false, r)
          else
            match nsname s with
            | Failed e => inr e
            | NotOk => inr (SyntaxError "expected attribute name in element")
            | Got n rest =>
                match space rest with
                | EmptyString => inr unexpectedEOF
                | String e r =>
                    if eqc e "=" then
                      match space r with
                      | EmptyString => inr unexpectedEOF
                      | String q r' =>
                          if Nat.eqb (code q) 34 || eqc q "'" then
                            match text (Some q) r' with
                            | inl (v, rest') =>
                                attributes fuel' rest' (attr ++ [xml.mkAttr n v])
                            | inr e => inr e
                            end
                          else
                            inr (SyntaxError
                                   "unquoted or missing attribute value in element")
                      end
                    else inr (SyntaxError "attribute name without = in element")
                end
            end
      end
  end.

(** The body of a comment, after [<!--]. *)
Fixpoint comment (b0 b1 : ascii) (acc s : string) : (string * string) + error :=
  match s with
  | EmptyString => inr unexpectedEOF
  | String b r =>
      if eqc b0 "-" && eqc b1 "-" then
        if eqc b ">" then
          inl (String.substring 0 (String.length acc - 2) acc, r)
        else
          inr (SyntaxError ("invalid sequence " +:+ dquote +:+ "--" +:+ dquote
                            +:+ " not allowed in comments"))
      else comment b1 b (acc +:+ str b) r
  end.

Definition andThen (tok : list xml.Token) (r : list xml.Token * error)
    : list xml.Token * error := (tok ++ r.1, r.2).

(** All the tokens [RawToken] delivers on input [s], and the error that
    ends them.  An empty-element tag delivers its start and its end. *)
Fixpoint rawTokens (fuel : nat) (s : string) : list xml.Token * error :=
  match fuel with
  | O => ([], unmodelled)
  | S fuel' =>
      match s with
      | EmptyString => ([], io_EOF)
      | String b r =>
          if negb (eqc b "<") then
            match text None s with
            | inl (data, rest) => andThen [xml.TCharData data] (rawTokens fuel' rest)
            | inr e => ([], e)
            end
          else
            match r with
            | EmptyString => ([], unexpectedEOF)
            | String c r' =>
                if eqc c "/" then
                  match nsname r' with
                  | Failed e => ([], e)
                  | NotOk => ([], SyntaxError "expected element name after </")
                  | Got n rest =>
                      match space rest with
                      | EmptyString => ([], unexpectedEOF)
                      | String e rest' =>
                          if eqc e ">" then
                            andThen [xml.TEndElement n] (rawTokens fuel' rest')
                          else
                            ([], SyntaxError ("invalid characters between </"
                                              +:+ xml.Local n +:+ " and >"))
                      end
                  end
                else if eqc c "?" then ([], unmodelled)
                else if eqc c "!" then
                  match r' with
                  | EmptyString => ([], unexpectedEOF)
                  | String d r2 =>
                      if eqc d "-" then
                        match r2 with
                        | EmptyString => ([], unexpectedEOF)
                        | String d' r3 =>
                            if eqc d' "-" then
                              match comment zero zero "" r3 with
                              | inl (data, rest) =>
                                  andThen [xml.TComment data] (rawTokens fuel' rest)
                              | inr e => ([], e)
                              end
                            else
                              ([], SyntaxError "invalid sequence <!- not part of <!--")
                        end
                      else ([], unmodelled)
                  end
                else
                  match nsname r with
                  | Failed e => ([], e)
                  | NotOk => ([], SyntaxError "expected element name after <")
                  | Got n rest =>
                      match attributes (S (String.length rest)) rest [] with
                      | inl (attr, empty, rest') =>
                          andThen
                            (xml.TStartElement (xml.mkStart n attr)
                             :: (if empty then [xml.TEndElement n] else []))
                            (rawTokens fuel' rest')
                      | inr e => ([], e)
                      end
                  end
            end
      end
  end.

Definition NewDecoder (data : string) : Decoder :=
  if allChars (between 0 127) data then
    let r := rawTokens (S (String.length data)) data in mkDecoder r.1 r.2
  else mkDecoder [] unmodelled.

(** [xml.EscapeText] on ASCII text.  A control character that XML does not
    allow is replaced by U+FFFD, in UTF-8 the bytes 239 191 189. *)
Definition escapeChar (c : ascii) : string :=
  if Nat.eqb (code c) 34 then "&#34;"
  else if eqc c "'" then "&#39;"
  else if eqc c "&" then "&amp;"
  else if eqc c "<" then "&lt;"
  else if eqc c ">" then "&gt;"
  else if Nat.eqb (code c) 9 then "&#x9;"
  else if Nat.eqb (code c) 10 then "&#xA;"
  else if Nat.eqb (code c) 13 then "&#xD;"
  else if Nat.ltb (code c) 32 then
    String (ascii_of_nat 239) (String (ascii_of_nat 191) (str (ascii_of_nat 189)))
  else str c.

Fixpoint EscapeText (s : string) : string :=
  match s with
  | String c r => escapeChar c +:+ EscapeText r
  | EmptyString => ""
  end.

Definition elements := elements NewDecoder EscapeText.
Definition Children := Children NewDecoder EscapeText.
Definition buildMRef := buildMRef NewDecoder EscapeText.
Definition flattenXML := flattenXML NewDecoder EscapeText.
Definition Flatten := Flatten NewDecoder EscapeText.

(** A quoted attribute value, for writing documents down. *)
Definition q (s : string) : string := dquote +:+ s +:+ dquote.

End GoXML.

(** ** Documents used below *)

(** No start or end tag of the token stream has the local name [local]. *)
Definition no_element_named (local : string) (toks : list xml.Token) : bool :=
  forallb
    (fun tok =>
       match tok with
       | xml.TStartElement s => negb (bool_decide (xml.Local (xml.SName s) = local))
       | xml.TEndElement n => negb (bool_decide (xml.Local n = local))
       | _ => true
       end)
    toks.

Module Docs.

Import GoXML.

Definition start (local : string) (attr : list (string * string)) : xml.StartElement :=
  xml.mkStart (xml.mkName "" local)
    (map (fun a => xml.mkAttr (xml.mkName "" a.1) a.2) attr).

Definition el (local : string) (attr : list (string * string)) (data : string) : element :=
  mkElement (start local attr) data.

(** The document of the single substitution, and what it flattens to. *)
Definition single : string :=
  "<Envelope><Header><sessionId href=" +:+ q "#id0" +:+ "/></Header>"
  +:+ "<Body><multiRef id=" +:+ q "id0" +:+ ">123456</multiRef></Body></Envelope>".

Definition single_flat : string :=
  "<Envelope><Header><sessionId href=" +:+ q "#id0" +:+ ">123456</sessionId></Header>"
  +:+ "<Body /></Envelope>".

Definition sessionId : element := el "sessionId" [("href", "#id0")] "".

Definition single_index : gmap string element :=
  <["id0" := el "multiRef" [("id", "id0")] "123456"]> ∅.

(** Two multiRef siblings, referenced by two placeholders. *)
Definition two_refs : string :=
  "<Body><a href=" +:+ q "#id0" +:+ "/><b href=" +:+ q "#id1" +:+ "/>"
  +:+ "<multiRef id=" +:+ q "id0" +:+ ">one</multiRef>"
  +:+ "<multiRef id=" +:+ q "id1" +:+ "><x>two</x></multiRef></Body>".

Definition two_refs_flat : string :=
  "<Body><a href=" +:+ q "#id0" +:+ ">one</a>"
  +:+ "<b href=" +:+ q "#id1" +:+ "><x>two</x></b></Body>".

Definition two_refs_tree : list node :=
  [NElem (start "Body" [])
     [NElem (start "a" [("href", "#id0")]) [];
      NElem (start "b" [("href", "#id1")]) [];
      NElem (start "multiRef" [("id", "id0")]) [NText "one"];
      NElem (start "multiRef" [("id", "id1")]) [NElem (start "x" []) [NText "two"]]]].

Definition two_refs_index : gmap string element :=
  <["id0" := el "multiRef" [("id", "id0")] "one"]>
    (<["id1" := el "multiRef" [("id", "id1")] "<x>two</x>"]> ∅).

(** An href without a matching id, on an element with content of its own
    and on an empty placeholder. *)
Definition dangling : string := "<a href=" +:+ q "#X" +:+ ">t</a>".

Definition placeholder : element := el "p" [("href", "#missing")] "".

(** An end tag that does not match the open start tag. *)
Definition mismatched : string := "<a><b></a>".

(** Two elements that refer to each other, and a placeholder inside the
    element it refers to, which is named multiRef. *)
Definition mutual : string :=
  "<r><A id=" +:+ q "a" +:+ " href=" +:+ q "#b" +:+ "/>"
  +:+ "<B id=" +:+ q "b" +:+ " href=" +:+ q "#a" +:+ "/></r>".

Definition mutual_flat : string :=
  "<r><A id=" +:+ q "a" +:+ " href=" +:+ q "#b" +:+ " />"
  +:+ "<B id=" +:+ q "b" +:+ " href=" +:+ q "#a" +:+ " /></r>".

Definition inside_multiRef : string :=
  "<Body><multiRef id=" +:+ q "x" +:+ "><item href=" +:+ q "#x" +:+ "/></multiRef></Body>".

(** A placeholder inside the element it refers to. *)
Definition self_ref : string :=
  "<a id=" +:+ q "x" +:+ "><b href=" +:+ q "#x" +:+ "/></a>".

Definition self_ref_a : element :=
  el "a" [("id", "x")] ("<b href=" +:+ q "#x" +:+ "></b>").

Definition self_ref_b : element := el "b" [("href", "#x")] "".

Definition self_ref_index : gmap string element := <["x" := self_ref_a]> ∅.



(** A plain document with white space and a comment, and its tree. *)
Definition pretty : string :=
  "<a x=" +:+ q "1" +:+ "> <b>x &amp; y</b> <!-- c --> <c/> </a>".

Definition pretty_tree : list node :=
  [NElem (start "a" [("x", "1")])
     [NText " "; NElem (start "b" []) [NText "x & y"]; NText " ";
      NOther (xml.TComment " c "); NText " "; NElem (start "c" []) []; NText " "]].

Definition pretty_flat : string :=
  "<a x=" +:+ q "1" +:+ "><b>x &amp; y</b><c /></a>".

(** The same id on two elements. *)
Definition twice : string :=
  "<r><x id=" +:+ q "k" +:+ ">1</x><y><z id=" +:+ q "k" +:+ ">2</z></y>"
  +:+ "<w id=" +:+ q "j" +:+ "/></r>".

Definition twice_z : element := el "z" [("id", "k")] "2".

(** An href that is the sign alone, and an element with the empty id. *)
Definition sign_only : string :=
  "<r><p href=" +:+ q "#" +:+ "/><e id=" +:+ q "" +:+ ">t</e></r>".

Definition sign_only_flat : string :=
  "<r><p href=" +:+ q "#" +:+ " /><e id=" +:+ q "" +:+ ">t</e></r>".

(** A placeholder named multiRef, and a placeholder whose href comes after
    an attribute with a prefix and the local name href. *)
Definition placeholder_named_multiRef : string :=
  "<r><multiRef href=" +:+ q "#a" +:+ "/><e id=" +:+ q "a" +:+ ">t</e></r>".

Definition prefixed_href_first : string :=
  "<r><p x:href=" +:+ q "y" +:+ " href=" +:+ q "#a" +:+ "/>"
  +:+ "<e id=" +:+ q "a" +:+ ">t</e></r>".

Definition prefixed_href_first_flat : string :=
  "<r><p x:href=" +:+ q "y" +:+ " href=" +:+ q "#a" +:+ " />"
  +:+ "<e id=" +:+ q "a" +:+ ">t</e></r>".

(** An attribute value that is a double quote: the content stored for [r]
    carries it unescaped and cannot be read back. *)
Definition quote_in_attribute : string := "<r><a b='" +:+ dquote +:+ "'/></r>".

Definition quote_in_attribute_r : element :=
  el "r" [] ("<a b=" +:+ q dquote +:+ "></a>").

(** A document that ends inside an open element. *)
Definition truncated : string := "<a><b>text".

(** Character data, an end tag that closes nothing, and a comment. *)
Definition no_element : string := "hello</a><!-- c -->".

(** [Docs.pretty] without what lies between its elements. *)
Definition pretty_stripped_tree : list node :=
  [NElem (start "a" [("x", "1")])
     [NElem (start "b" []) [NText "x & y"]; NElem (start "c" []) []]].

(** An element with character data and one child, named multiRef. *)
Definition body_with_note : element :=
  el "Body" [] ("note<multiRef id=" +:+ q "id0" +:+ ">123456</multiRef>").

(** A chain of references: [p] refers to [a], whose content refers to
    [b]. *)
Definition chain : string :=
  "<r><p href=" +:+ q "#a" +:+ "/>"
  +:+ "<multiRef id=" +:+ q "a" +:+ "><q href=" +:+ q "#b" +:+ "/></multiRef>"
  +:+ "<multiRef id=" +:+ q "b" +:+ ">v</multiRef></r>".

Definition chain_tree : list node :=
  [NElem (start "r" [])
     [NElem (start "p" [("href", "#a")]) [];
      NElem (start "multiRef" [("id", "a")]) [NElem (start "q" [("href", "#b")]) []];
      NElem (start "multiRef" [("id", "b")]) [NText "v"]]].

Definition chain_rank (id : string) : nat := if String.eqb id "a" then 1 else 0.

Definition chain_flat : string :=
  "<r><p href=" +:+ q "#a" +:+ "><q href=" +:+ q "#b" +:+ ">v</q></p></r>".

(** A Fault, and an envelope decoder that always finds it. *)
Definition a_fault : Fault := mkFault "soap:Server" "boom" "" "".

(** [strconv.Quote] on ASCII text. *)
Definition backslash : string := Eval cbv in str (ascii_of_nat 92).

Definition quoteChar (c : ascii) : string :=
  let n := code c in
  if Nat.eqb n 34 then backslash +:+ dquote
  else if Nat.eqb n 92 then backslash +:+ backslash
  else if Nat.eqb n 7 then backslash +:+ "a"
  else if Nat.eqb n 8 then backslash +:+ "b"
  else if Nat.eqb n 12 then backslash +:+ "f"
  else if Nat.eqb n 10 then backslash +:+ "n"
  else if Nat.eqb n 13 then backslash +:+ "r"
  else if Nat.eqb n 9 then backslash +:+ "t"
  else if Nat.eqb n 11 then backslash +:+ "v"
  else if Nat.ltb n 32 || Nat.eqb n 127 then
    backslash +:+ "x" +:+ str (hexDigit 97 (n / 16)) +:+ str (hexDigit 97 (n mod 16))
  else str c.

Fixpoint quoteChars (s : string) : string :=
  match s with
  | String c r => quoteChar c +:+ quoteChars r
  | EmptyString => ""
  end.

Definition Quote (s : string) : string := q (quoteChars s).

(** [strings.Cut(s, "#")], the part before the sign. *)
Fixpoint beforeSign (s : string) : string :=
  match s with
  | String c r => if eqc c "#" then "" else String c (beforeSign r)
  | EmptyString => ""
  end.

Definition isCTL (c : ascii) : bool := Nat.ltb (code c) 32 || Nat.eqb (code c) 127.

Definition isPlainURLByte (c : ascii) : bool :=
  isLetter c || isDigit c || eqc c "." || eqc c "/" || eqc c "-" || eqc c "_".

(** [url.Parse] on ASCII text, as far as the examples need it.  The part
    of the URL before the fragment is refused when it has a control
    character, with the error [url.Parse] wraps around the URL; a URL made
    of [http://] and then of letters, digits, dots, slashes, hyphens and
    underscores is accepted and kept as it is written.  Anything else is
    outside the fragment. *)
Definition url_Parse (s : string) : string + error :=
  if negb (allChars (between 0 127) s) then inr unmodelled
  else if negb (allChars (fun c => negb (isCTL c)) (beforeSign s)) then
    inr (errorString ("parse " +:+ Quote (beforeSign s)
                      +:+ ": net/url: invalid control character in URL"))
  else if String.prefix "http://" s
          && allChars isPlainURLByte (String.substring 7 (String.length s - 7) s)
  then inl s
  else inr unmodelled.

(** Two multiRef siblings with their placeholders, after an element whose
    attribute value is a double quote: the content stored for [r] cannot be
    read back. *)
Definition unreadable_refs : string :=
  "<r><a b='" +:+ dquote +:+ "'/><p href=" +:+ q "#id0" +:+ "/><s href=" +:+ q "#id1"
  +:+ "/><multiRef id=" +:+ q "id0" +:+ ">one</multiRef>"
  +:+ "<multiRef id=" +:+ q "id1" +:+ ">two</multiRef></r>".

Definition unreadable_refs_r : element :=
  el "r" []
    ("<a b=" +:+ q dquote +:+ "></a><p href=" +:+ q "#id0" +:+ "></p><s href="
     +:+ q "#id1" +:+ "></s><multiRef id=" +:+ q "id0" +:+ ">one</multiRef>"
     +:+ "<multiRef id=" +:+ q "id1" +:+ ">two</multiRef>").

(** Two multiRef siblings with their placeholders; the first has character
    data around a child element. *)
Definition mixed_target : string :=
  "<r><p href=" +:+ q "#id0" +:+ "/><s href=" +:+ q "#id1" +:+ "/>"
  +:+ "<multiRef id=" +:+ q "id0" +:+ ">one<x/>two</multiRef>"
  +:+ "<multiRef id=" +:+ q "id1" +:+ ">t</multiRef></r>".

Definition mixed_target_tree : list node :=
  [NElem (start "r" [])
     [NElem (start "p" [("href", "#id0")]) [];
      NElem (start "s" [("href", "#id1")]) [];
      NElem (start "multiRef" [("id", "id0")])
        [NText "one"; NElem (start "x" []) []; NText "two"];
      NElem (start "multiRef" [("id", "id1")]) [NText "t"]]].

Definition mixed_target_flat : string :=
  "<r><p href=" +:+ q "#id0" +:+ "><x /></p><s href=" +:+ q "#id1" +:+ ">t</s></r>".

(** An element with an id inside content that cannot be read back, and an
    element with two attributes of local name id. *)
Definition unreadable_id : string :=
  "<r><a b='" +:+ dquote +:+ "'/><multiRef id=" +:+ q "x" +:+ ">t</multiRef></r>".

Definition unreadable_id_r : element :=
  el "r" [] ("<a b=" +:+ q dquote +:+ "></a><multiRef id=" +:+ q "x" +:+ ">t</multiRef>").

Definition prefixed_id : string :=
  "<r><e x:id=" +:+ q "p" +:+ " id=" +:+ q "q" +:+ ">t</e></r>".

Definition prefixed_id_e : element :=
  mkElement
    (xml.mkStart (xml.mkName "" "e")
       [xml.mkAttr (xml.mkName "x" "id") "p"; xml.mkAttr (xml.mkName "" "id") "q"])
    "t".

End Docs.

(** * Properties *)

Section Theory.

Variable NewDecoder : string -> Decoder.
Variable EscapeText : string -> string.

Local Abbreviation elementData := (elementData EscapeText).
Local Abbreviation elements_loop := (elements_loop EscapeText).
Local Abbreviation elements := (elements NewDecoder EscapeText).
Local Abbreviation Children := (Children NewDecoder EscapeText).
Local Abbreviation walkMultiRef := (walkMultiRef NewDecoder EscapeText).
Local Abbreviation buildMRef := (buildMRef NewDecoder EscapeText).
Local Abbreviation flattenXML := (flattenXML NewDecoder EscapeText).
Local Abbreviation Flatten := (Flatten NewDecoder EscapeText).
Local Abbreviation visitOrder := (visitOrder NewDecoder EscapeText).
Local Abbreviation markup := (markup EscapeText).
Local Abbreviation elems := (elems EscapeText).
Local Abbreviation reparses := (reparses NewDecoder EscapeText).
Local Abbreviation postorder := (postorder EscapeText).
Local Abbreviation flat := (flat EscapeText).
Local Abbreviation index_agrees := (index_agrees EscapeText).
Local Abbreviation index_reparses := (index_reparses NewDecoder EscapeText).

(** ** The tree builder is total, and finds the first mismatch *)

(** With more fuel than tokens, [elementData] returns; it only consumes
    tokens; it fails with [unexpectedEnd] at the first end tag that does not
    match, and with the decoder's error if there is none. *)
Lemma elementData_spec (n : nat) :
  forall (p : Decoder) (start : xml.StartElement) (buf : string)
         (open : list xml.Name),
    length (pending p) < n ->
    exists p' buf' e,
      elementData n p start buf = Some (p', buf', e)
      /\ length (pending p') <= length (pending p)
      /\ final p' = final p
      /\ match e with
         | None =>
             first_mismatch (xml.SName start :: open) (pending p)
             = first_mismatch open (pending p')
         | Some err =>
             match first_mismatch (xml.SName start :: open) (pending p) with
             | Some m => err = unexpectedEnd m
             | None => err = final p
             end
         end.
Proof.
  induction n as [|n IH]; intros [toks fin] start buf open Hlen; [lia|].
  destruct toks as [|tok rest]; simpl in *.
  { eexists _, _, _. repeat split; eauto. }
  destruct tok as [s|nm|s|s|t i|s]; simpl.
  - destruct (IH (mkDecoder rest fin) s (buf +:+ StartTag s)
                (xml.SName start :: open)) as (p1 & b1 & e1 & -> & Hl1 & Hf1 & H1);
      [simpl; lia|].
    destruct e1 as [err|].
    + eexists _, _, _. repeat split; eauto; simpl in *; try lia.
    + destruct (IH p1 start (b1 +:+ EndTag s) open)
        as (p2 & b2 & e2 & -> & Hl2 & Hf2 & H2); [simpl in *; lia|].
      eexists _, _, _. repeat split; eauto; simpl in *; try lia; try congruence.
      rewrite H1. destruct e2; [|done].
      destruct (first_mismatch _ (pending p1)); congruence.
  - case_decide as Hn; eexists _, _, _; repeat split; eauto; simpl; lia.
  - destruct (IH (mkDecoder rest fin) start (buf +:+ EscapeText s) open)
      as (p1 & b1 & e1 & -> & Hl1 & Hf1 & H1); [simpl; lia|].
    eexists _, _, _. repeat split; eauto; simpl in *; lia.
  - destruct (IH (mkDecoder rest fin) start buf open)
      as (p1 & b1 & e1 & -> & Hl1 & Hf1 & H1); [simpl; lia|].
    eexists _, _, _. repeat split; eauto; simpl in *; lia.
  - destruct (IH (mkDecoder rest fin) start buf open)
      as (p1 & b1 & e1 & -> & Hl1 & Hf1 & H1); [simpl; lia|].
    eexists _, _, _. repeat split; eauto; simpl in *; lia.
  - destruct (IH (mkDecoder rest fin) start buf open)
      as (p1 & b1 & e1 & -> & Hl1 & Hf1 & H1); [simpl; lia|].
    eexists _, _, _. repeat split; eauto; simpl in *; lia.
Qed.

(** With more fuel than tokens, the loop of [elements] returns: the
    elements and no error when the tags match up to a clean end of input,
    nothing and an error otherwise. *)
Lemma elements_loop_spec (n : nat) :
  forall (p : Decoder) (elem : list element),
    length (pending p) < n ->
    exists r e,
      elements_loop n p elem = Some (r, e)
      /\ match e with
         | None => first_mismatch [] (pending p) = None /\ final p = io_EOF
         | Some err =>
             r = []
             /\ match first_mismatch [] (pending p) with
                | Some m => err = unexpectedEnd m
                | None => err = final p
                end
         end.
Proof.
  induction n as [|n IH]; intros [toks fin] elem Hlen; [lia|].
  destruct toks as [|tok rest]; simpl in *.
  { case_decide; eexists _, _; (split; [reflexivity|]); simpl; done. }
  destruct tok as [s|nm|s|s|t i|s]; simpl;
    try (destruct (IH (mkDecoder rest fin) elem) as (r & e & -> & H);
         [simpl; lia|]; eexists _, _; (split; [reflexivity|]); done).
  destruct (elementData_spec n (mkDecoder rest fin) s "" [])
    as (p1 & b1 & e1 & -> & Hl1 & Hf1 & H1); [simpl; lia|].
  simpl in *. destruct e1 as [err|].
  - eexists _, _; (split; [reflexivity|]). split; [done|].
    destruct (first_mismatch _ rest); done.
  - destruct (IH p1 (elem ++ [mkElement s b1])) as (r & e & -> & H);
      [simpl in *; lia|].
    eexists _, _; (split; [reflexivity|]). rewrite H1, <- Hf1. done.
Qed.

Lemma elements_loop_total (data : string) :
  elements_loop (S (length (pending (NewDecoder data)))) (NewDecoder data) []
  = Some (elements data).
Proof.
  unfold soap.elements.
  destruct (elements_loop_spec (S (length (pending (NewDecoder data))))
              (NewDecoder data) []) as (r & e & -> & _); [lia|].
  done.
Qed.

Lemma elements_spec (data : string) :
  match elements data with
  | (_, None) =>
      first_mismatch [] (pending (NewDecoder data)) = None
      /\ final (NewDecoder data) = io_EOF
  | (r, Some err) =>
      r = []
      /\ match first_mismatch [] (pending (NewDecoder data)) with
         | Some m => err = unexpectedEnd m
         | None => err = final (NewDecoder data)
         end
  end.
Proof.
  unfold soap.elements.
  destruct (elements_loop_spec (S (length (pending (NewDecoder data))))
              (NewDecoder data) []) as (r & e & -> & H); [lia|].
  simpl. destruct e; done.
Qed.

(** An error of the tree build comes with no elements. *)
Lemma elements_error (data : string) (r : list element) (err : error) :
  elements data = (r, Some err) -> r = [].
Proof. intros H. pose proof (elements_spec data) as Hs. rewrite H in Hs. tauto. Qed.

Lemma Children_error (el : element) (r : list element) (err : error) :
  elements (Data el) = (r, Some err) -> Children el = [].
Proof. unfold soap.Children. by intros ->. Qed.

(** ** Errors of the two passes *)

Lemma walk_range_no_error
    (walk : element -> gmap string element -> option (gmap string element * option error)) :
  (forall el m m' e, walk el m = Some (m', e) -> e = None) ->
  forall els m m' e, walk_range walk els m = Some (m', e) -> e = None.
Proof.
  intros Hw els. induction els as [|el els IH]; simpl; intros m m' e H.
  - congruence.
  - destruct (walk el m) as [[m1 [e1|]]|] eqn:E; try congruence.
    + apply Hw in E. congruence.
    + eauto.
Qed.

(** [walkMultiRef] has an error result, and it is always nil. *)
Lemma walkMultiRef_no_error (fuel : nat) :
  forall root m m' e, walkMultiRef fuel root m = Some (m', e) -> e = None.
Proof.
  induction fuel as [|n IH]; simpl; intros root m m' e H; [congruence|].
  destruct (walk_range _ _ _) as [[m1 [e1|]]|] eqn:E; try congruence.
  - apply walk_range_no_error in E; [congruence|exact IH].
  - destruct (findId (Attr root)) as [id []]; congruence.
Qed.

Lemma flatten_range_no_error (flatten : element -> option (string * option error)) :
  (forall el out e, flatten el = Some (out, e) -> e = None) ->
  forall els buf out e, flatten_range flatten els buf = Some (out, e) -> e = None.
Proof.
  intros Hf els. induction els as [|el els IH]; simpl; intros buf out e H.
  - congruence.
  - destruct (flatten el) as [[d [e1|]]|] eqn:E; try congruence.
    + apply Hf in E. congruence.
    + eauto.
Qed.

(** The error result of [flattenXML] is always nil. *)
Lemma flattenXML_no_error (fuel : nat) :
  forall root mref out e, flattenXML fuel root mref = Some (out, e) -> e = None.
Proof.
  induction fuel as [|n IH]; simpl; intros root mref out e H; [congruence|].
  case_decide; [congruence|].
  case_decide; [|congruence].
  destruct (flatten_range _ _ _) as [[d [e1|]]|] eqn:E; try congruence.
  apply flatten_range_no_error in E; [congruence|].
  intros el o e'. apply IH.
Qed.

(** An error of the tree build is the result of [buildMRef] and of
    [Flatten], whatever the fuel, and the buffer returned with it is empty. *)
Lemma buildMRef_elements_error (fuel : nat) (data : string) (r : list element)
    (err : error) :
  elements data = (r, Some err) -> buildMRef fuel data = Some (∅, Some err).
Proof. unfold soap.buildMRef. by intros ->. Qed.

Lemma Flatten_elements_error (fuel : nat) (data : string) (r : list element)
    (err : error) :
  elements data = (r, Some err) -> Flatten fuel data = Some ("", Some err).
Proof.
  intros H. unfold soap.Flatten.
  by rewrite (buildMRef_elements_error fuel data r err H).
Qed.

(** Conversely, an error of [Flatten] is an error of the tree build on the
    whole buffer. *)
Lemma Flatten_error_inv (fuel : nat) (data out : string) (err : error) :
  Flatten fuel data = Some (out, Some err) ->
  out = "" /\ (elements data).2 = Some err.
Proof.
  unfold soap.Flatten, soap.buildMRef.
  destruct (elements data) as [elem [e|]] eqn:E; simpl.
  - intros [= <- <-]. done.
  - destruct (walk_range _ _ _) as [[m [e1|]]|] eqn:Ew; try discriminate.
    + apply walk_range_no_error in Ew; [discriminate|].
      apply walkMultiRef_no_error.
    + destruct (flatten_range _ _ _) as [[d [e1|]]|] eqn:Ef; try discriminate.
      apply flatten_range_no_error in Ef; [discriminate|].
      intros el o e'. apply flattenXML_no_error.
Qed.

(** ** More fuel changes no result *)

Lemma walk_range_mono
    (walk walk' : element -> gmap string element -> option (gmap string element * option error)) :
  (forall el m r, walk el m = Some r -> walk' el m = Some r) ->
  forall els m r, walk_range walk els m = Some r -> walk_range walk' els m = Some r.
Proof.
  intros Hw els. induction els as [|el els IH]; simpl; intros m r H; [done|].
  destruct (walk el m) as [[m1 e1]|] eqn:E; [|done].
  rewrite (Hw _ _ _ E). destruct e1; eauto.
Qed.

Lemma walkMultiRef_mono (n : nat) :
  forall k root m r, n <= k ->
    walkMultiRef n root m = Some r -> walkMultiRef k root m = Some r.
Proof.
  induction n as [|n IH]; intros k root m r Hk; simpl; [done|].
  destruct k as [|k]; [lia|]. simpl.
  destruct (walk_range (walkMultiRef n) _ _) as [[m1 e1]|] eqn:E; [|done].
  rewrite (walk_range_mono _ (walkMultiRef k)
             (fun el m0 r0 => IH k el m0 r0 ltac:(lia)) _ _ _ E).
  done.
Qed.

Lemma flatten_range_mono (flatten flatten' : element -> option (string * option error)) :
  (forall el r, flatten el = Some r -> flatten' el = Some r) ->
  forall els buf r,
    flatten_range flatten els buf = Some r -> flatten_range flatten' els buf = Some r.
Proof.
  intros Hf els. induction els as [|el els IH]; simpl; intros buf r H; [done|].
  destruct (flatten el) as [[d e1]|] eqn:E; [|done].
  rewrite (Hf _ _ E). destruct e1; eauto.
Qed.

Lemma flattenXML_mono (n : nat) :
  forall k root mref r, n <= k ->
    flattenXML n root mref = Some r -> flattenXML k root mref = Some r.
Proof.
  induction n as [|n IH]; intros k root mref r Hk; simpl; [done|].
  destruct k as [|k]; [lia|]. simpl.
  case_decide; [done|]. case_decide; [|done].
  destruct (flatten_range (fun el => flattenXML n el mref) _ _) as [[d e1]|] eqn:E;
    [|done].
  rewrite (flatten_range_mono _ (fun el => flattenXML k el mref)
             (fun el r0 => IH k el mref r0 ltac:(lia)) _ _ _ E).
  done.
Qed.

Lemma buildMRef_mono (n k : nat) (data : string) r :
  n <= k -> buildMRef n data = Some r -> buildMRef k data = Some r.
Proof.
  intros Hk. unfold soap.buildMRef.
  destruct (elements data) as [elem [e|]]; [done|].
  destruct (walk_range (walkMultiRef n) _ _) as [[m e1]|] eqn:E; [|done].
  rewrite (walk_range_mono _ (walkMultiRef k)
             (fun el m0 r0 => walkMultiRef_mono n k el m0 r0 Hk) _ _ _ E).
  done.
Qed.

(** What [Flatten] returns with some fuel, it returns with any larger fuel. *)
Lemma Flatten_mono (n k : nat) (data : string) r :
  n <= k -> Flatten n data = Some r -> Flatten k data = Some r.
Proof.
  intros Hk. unfold soap.Flatten.
  destruct (buildMRef n data) as [[m e1]|] eqn:E; [|done].
  rewrite (buildMRef_mono n k data _ Hk E).
  destruct e1; [done|].
  destruct (elements data) as [elem [e|]]; [done|].
  destruct (flatten_range (fun el => flattenXML n el m) _ _) as [[d e1]|] eqn:Ef;
    [|done].
  rewrite (flatten_range_mono _ (fun el => flattenXML k el m)
             (fun el r0 => flattenXML_mono n k el m r0 Hk) _ _ _ Ef).
  done.
Qed.

(** ** One step of the substitution pass *)

Lemma flattenXML_unfold (fuel : nat) (root : element) (mref : gmap string element) :
  flattenXML (S fuel) root mref =
  if decide (xml.Local (Name root) = "multiRef") then Some ("", None)
  else
    let root' := substituted mref root in
    if decide (0 < length (Children root')) then
      match flatten_range (fun el => flattenXML fuel el mref) (Children root') "" with
      | None => None
      | Some (_, Some err) => Some ("", Some err)
      | Some (accum, None) => Some (marshal (mkElement (Start root') accum), None)
      end
    else Some (marshal root', None).
Proof. reflexivity. Qed.

Lemma substituted_Start (mref : gmap string element) (root : element) :
  Start (substituted mref root) = Start root.
Proof.
  unfold substituted. destruct (findHref (Attr root)) as [h []]; [|done].
  by destruct (mref !! h).
Qed.

Lemma append_cons (c : ascii) (s t : string) :
  String c s +:+ t = String c (s +:+ t).
Proof. reflexivity. Qed.

Lemma append_empty_l (s : string) : "" +:+ s = s.
Proof. reflexivity. Qed.

Lemma append_empty_r (s : string) : s +:+ "" = s.
Proof. induction s as [|c s IH]; [done|]. by rewrite append_cons, IH. Qed.

Lemma append_assoc (a b c : string) : (a +:+ b) +:+ c = a +:+ (b +:+ c).
Proof. induction a as [|x a IH]; [done|]. by rewrite !append_cons, IH. Qed.

(** The loop over the children only appends to its buffer. *)
Lemma flatten_range_buf (flatten : element -> option (string * option error)) :
  forall els buf,
    flatten_range flatten els buf =
    match flatten_range flatten els "" with
    | Some (out, None) => Some (buf +:+ out, None)
    | r => r
    end.
Proof.
  induction els as [|el els IH]; intros buf; simpl.
  - by rewrite append_empty_r.
  - destruct (flatten el) as [[d [e|]]|]; try done.
    rewrite (IH (buf +:+ d)), (IH ("" +:+ d)), append_empty_l.
    destruct (flatten_range flatten els "") as [[o [e|]]|]; try done.
    by rewrite append_assoc.
Qed.

Lemma flatten_range_app (flatten : element -> option (string * option error)) :
  forall els1 els2 buf,
    flatten_range flatten (els1 ++ els2) buf =
    match flatten_range flatten els1 buf with
    | Some (out, None) => flatten_range flatten els2 out
    | r => r
    end.
Proof.
  induction els1 as [|el els1 IH]; intros els2 buf; simpl; [done|].
  destruct (flatten el) as [[d [e|]]|]; try done.
Qed.

(** A child that runs out of fuel makes the loop run out of fuel. *)
Lemma flatten_range_None (flatten : element -> option (string * option error)) :
  (forall el out e, flatten el = Some (out, e) -> e = None) ->
  forall els c buf,
    In c els -> flatten c = None -> flatten_range flatten els buf = None.
Proof.
  intros Hf els c. induction els as [|el els IH]; intros buf Hin Hc; [done|].
  simpl. destruct Hin as [->|Hin]; [by rewrite Hc|].
  destruct (flatten el) as [[d [e|]]|] eqn:E; [|by eauto|done].
  apply Hf in E. done.
Qed.

(** ** Content that cannot be read back *)

(** When the content stored for an element cannot be read back, the index
    pass visits and records the element itself and nothing below it. *)
Lemma visitOrder_unreadable (fuel : nat) (root : element) (r : list element)
    (err : error) :
  elements (Data root) = (r, Some err) ->
  visitOrder (S fuel) root = Some [root].
Proof. intros E. simpl. by rewrite (Children_error _ _ _ E). Qed.

Lemma walkMultiRef_unreadable (fuel : nat) (root : element)
    (mref : gmap string element) (r : list element) (err : error) :
  elements (Data root) = (r, Some err) ->
  walkMultiRef (S fuel) root mref = Some (record mref root, None).
Proof.
  intros E. simpl. rewrite (Children_error _ _ _ E). simpl. unfold record.
  by destruct (findId (Attr root)) as [id []].
Qed.

(** When the content of an element, after the href step, cannot be read
    back, the substitution pass writes that content as it is stored. *)
Lemma flattenXML_unreadable (fuel : nat) (root : element)
    (mref : gmap string element) (r : list element) (err : error) :
  xml.Local (Name root) <> "multiRef" ->
  elements (Data (substituted mref root)) = (r, Some err) ->
  flattenXML (S fuel) root mref = Some (marshal (substituted mref root), None).
Proof.
  intros Hn E. rewrite flattenXML_unfold, decide_False by done. cbn zeta.
  by rewrite (Children_error _ _ _ E).
Qed.

(** ** The claims about the passes *)

(** C4.  When the token stream of the buffer has an end tag whose name
    differs from the start tag that is open at that point, the tree build
    fails with the error made for that end tag; [Flatten] returns this
    error with an empty buffer, for any fuel, and [Unmarshal] returns it
    and leaves the target as it was. *)
Theorem mismatched_end_tag_is_rejected
    (V : Type) (xml_Unmarshal : string -> V -> V * option error)
    (data : string) (m : xml.Name) :
  first_mismatch [] (pending (NewDecoder data)) = Some m ->
  elements data = ([], Some (unexpectedEnd m))
  /\ forall fuel : nat,
       Flatten fuel data = Some ("", Some (unexpectedEnd m))
       /\ forall v : V,
            Unmarshal NewDecoder EscapeText V xml_Unmarshal fuel data v
            = Some (v, Some (unexpectedEnd m)).
Proof.
  intros Hm. pose proof (elements_spec data) as Hs.
  destruct (elements data) as [r [err|]] eqn:E.
  - rewrite Hm in Hs. destruct Hs as [-> ->]. split; [done|].
    intros fuel.
    pose proof (Flatten_elements_error fuel data _ _ E) as HF.
    split; [done|]. intros v. unfold Unmarshal. by rewrite HF.
  - destruct Hs as [Hn _]. congruence.
Qed.

(** C9, as amended.  A failure of the tree build on the buffer itself is
    what [Flatten] returns, with an empty buffer, and [Flatten] returns no
    other error: the substitution pass never makes one.  A failure while
    the children of an element are derived again from its stored content
    is not reported: [Children] returns no children; the index pass then
    returns no error, visits the element alone and records it and nothing
    below it; and the substitution pass, for an element that is not named
    multiRef, returns no error and writes the content (the referenced
    element's, when the href resolves) as it is stored, under the
    element's start tag. *)
Theorem only_errors_of_the_buffer_are_reported (fuel : nat) (data : string) :
  (forall r err, elements data = (r, Some err) ->
                 Flatten fuel data = Some ("", Some err))
  /\ (forall out err, Flatten fuel data = Some (out, Some err) ->
                      out = "" /\ (elements data).2 = Some err)
  /\ (forall el r err, elements (Data el) = (r, Some err) -> Children el = [])
  /\ (forall root mref out e, flattenXML fuel root mref = Some (out, e) -> e = None)
  /\ (forall root mref r err,
        elements (Data root) = (r, Some err) ->
        visitOrder (S fuel) root = Some [root]
        /\ walkMultiRef (S fuel) root mref = Some (record mref root, None))
  /\ (forall root mref r err,
        xml.Local (Name root) <> "multiRef" ->
        elements (Data (substituted mref root)) = (r, Some err) ->
        Start (substituted mref root) = Start root
        /\ flattenXML (S fuel) root mref
           = Some (marshal (substituted mref root), None)).
Proof.
  split; [|split; [|split; [|split; [|split]]]].
  - intros r err. apply Flatten_elements_error.
  - intros out err. apply Flatten_error_inv.
  - intros el r err. apply Children_error.
  - apply flattenXML_no_error.
  - intros root mref r err E. split.
    + by apply (visitOrder_unreadable fuel root r err).
    + by apply (walkMultiRef_unreadable fuel root mref r err).
  - intros root mref r err Hn E. split; [apply substituted_Start|].
    by apply (flattenXML_unreadable fuel root mref r err).
Qed.

(** C3, as amended.  For an element that is not named multiRef and whose
    href is not in the index, [flattenXML] returns no error and replaces
    nothing: an element without child elements is written with its own
    content, which is an empty-element tag when that content is empty, and
    an element with child elements is written with these flattened in
    turn. *)
Theorem missing_id_keeps_own_content
    (fuel : nat) (root : element) (mref : gmap string element) (href : string) :
  xml.Local (Name root) <> "multiRef" ->
  findHref (Attr root) = (href, true) ->
  mref !! href = None ->
  (forall out e, flattenXML (S fuel) root mref = Some (out, e) -> e = None)
  /\ substituted mref root = root
  /\ (Children root = [] ->
      flattenXML (S fuel) root mref = Some (marshal root, None)
      /\ (Data root = "" -> marshal root = EmptyTag (Start root)))
  /\ (Children root <> [] ->
      flattenXML (S fuel) root mref =
      match flatten_range (fun c => flattenXML fuel c mref) (Children root) "" with
      | Some (accum, None) => Some (marshal (mkElement (Start root) accum), None)
      | Some (_, Some err) => Some ("", Some err)
      | None => None
      end).
Proof.
  intros Hname Hhref Hmiss. split; [apply flattenXML_no_error|].
  assert (Hs : substituted mref root = root)
    by (unfold substituted; by rewrite Hhref, Hmiss).
  split; [done|]. split.
  - intros Hkids. split.
    + rewrite flattenXML_unfold, decide_False by done. cbn zeta.
      by rewrite Hs, Hkids.
    + intros HD. unfold marshal. by rewrite decide_True.
  - intros Hkids. rewrite flattenXML_unfold, decide_False by done. cbn zeta.
    rewrite Hs. rewrite decide_True; [done|].
    destruct (Children root); [done|simpl; lia].
Qed.

(** [findAttr] with an empty space returns the first attribute whose local
    name is [name], whatever its prefix. *)
Lemma findAttr_any_space (l : list xml.Attr) (name : string) :
  findAttr l "" name = List.find (fun a => bool_decide (xml.Local (xml.AName a) = name)) l.
Proof.
  induction l as [|a l IH]; simpl; [done|].
  case_decide as H; case_bool_decide as H'; try done; tauto.
Qed.

(** [findHref] succeeds exactly on a value of the form [#id] with a
    non-empty [id]. *)
Lemma findHref_spec (l : list xml.Attr) (id : string) :
  findHref l = (id, true) <->
  exists a, findAttr l "" "href" = Some a /\ xml.Value a = String "#" id /\ id <> "".
Proof.
  unfold findHref. destruct (findAttr l "" "href") as [a|]; [|split; [done|]].
  - destruct (xml.Value a) as [|c rest] eqn:Ev.
    + split; [done|]. intros (a' & [= <-] & H & _). congruence.
    + simpl. case_decide as H.
      * destruct H as [Hlen ->]. split.
        -- intros [= ->]. exists a. repeat split; try done.
           intros ->. simpl in Hlen. lia.
        -- intros (a' & [= <-] & H & _). congruence.
      * split; [done|]. intros (a' & [= <-] & Hv & Hne).
        rewrite Ev in Hv. injection Hv as -> ->. destruct H. split; [|done].
        destruct id; [done|]. simpl. lia.
  - intros (a & H & _). done.
Qed.

(** C8, as amended.  [findHref] takes the first attribute with local name
    href and succeeds when its value is [#] followed by at least one
    character, which is the id.  For an element that is not named multiRef:
    when the id is in the index, the element is flattened with the
    referenced element's content under its own start tag (name and
    attributes); when [findHref] fails, with its own content. *)
Theorem href_substitution
    (fuel : nat) (root : element) (mref : gmap string element) :
  xml.Local (Name root) <> "multiRef" ->
  (forall id, findHref (Attr root) = (id, true) <->
              exists a, findAttr (Attr root) "" "href" = Some a
                        /\ xml.Value a = String "#" id /\ id <> "")
  /\ (forall id el,
        findHref (Attr root) = (id, true) -> mref !! id = Some el ->
        let root' := mkElement (Start root) (Data el) in
        substituted mref root = root'
        /\ (Children root' = [] ->
            flattenXML (S fuel) root mref = Some (marshal root', None))
        /\ (forall accum,
              Children root' <> [] ->
              flatten_range (fun c => flattenXML fuel c mref) (Children root') ""
              = Some (accum, None) ->
              flattenXML (S fuel) root mref
              = Some (marshal (mkElement (Start root) accum), None)))
  /\ (forall s, findHref (Attr root) = (s, false) ->
        substituted mref root = root
        /\ (Children root = [] ->
            flattenXML (S fuel) root mref = Some (marshal root, None))).
Proof.
  intros Hname. split; [intros id; apply findHref_spec|]. split.
  - intros id el Hh Hm root'.
    assert (Hs : substituted mref root = root')
      by (unfold substituted; by rewrite Hh, Hm).
    split; [done|]. split.
    + intros Hk. rewrite flattenXML_unfold, decide_False by done. simpl.
      by rewrite Hs, Hk.
    + intros accum Hk Hr. rewrite flattenXML_unfold, decide_False by done. simpl.
      rewrite Hs, Hr. rewrite decide_True; [done|].
      destruct (Children root'); [done|simpl; lia].
  - intros s0 Hh.
    assert (Hs : substituted mref root = root)
      by (unfold substituted; by rewrite Hh).
    split; [done|]. intros Hk.
    rewrite flattenXML_unfold, decide_False by done. simpl.
    by rewrite Hs, Hk.
Qed.

(** ** The index pass *)

Lemma walk_range_visitAll
    (walk : element -> gmap string element -> option (gmap string element * option error))
    (visit : element -> option (list element)) :
  (forall el m, walk el m = (fun l => (foldl record m l, None)) <$> visit el) ->
  forall els m,
    walk_range walk els m = (fun l => (foldl record m l, None)) <$> visitAll visit els.
Proof.
  intros Hw els. induction els as [|el els IH]; intros m; simpl; [done|].
  rewrite Hw. destruct (visit el) as [l|]; simpl; [|done].
  rewrite IH. destruct (visitAll visit els) as [ls|]; simpl; [|done].
  by rewrite foldl_app.
Qed.

(** The index pass records the elements in the order of [visitOrder]. *)
Lemma walkMultiRef_visitOrder (fuel : nat) :
  forall root m,
    walkMultiRef fuel root m = (fun l => (foldl record m l, None)) <$> visitOrder fuel root.
Proof.
  induction fuel as [|n IH]; intros root m; simpl; [done|].
  rewrite (walk_range_visitAll _ _ IH).
  destruct (visitAll _ _) as [l|]; simpl; [|done].
  rewrite ?foldl_app. simpl. unfold record.
  by destruct (findId (Attr root)) as [id []].
Qed.

(** After recording [order] on top of [m], an id is bound to the last
    element of [order] that carries it, and as in [m] if there is none. *)
Lemma foldl_record_lookup (order : list element) :
  forall (m : gmap string element) (id : string),
    foldl record m order !! id =
    match last_with_id id order with
    | Some el => Some el
    | None => m !! id
    end.
Proof.
  unfold last_with_id.
  induction order as [|e order IH]; intros m id; simpl; [done|].
  rewrite IH. rewrite filter_cons. case_decide as He.
  - rewrite last_cons. destruct (last (filter _ order)); [done|].
    unfold record. rewrite He. by rewrite lookup_insert_eq.
  - destruct (last (filter _ order)); [done|].
    unfold record. destruct (findId (Attr e)) as [id' []] eqn:E; [|done].
    rewrite lookup_insert_ne; [done|]. congruence.
Qed.

(** ** Reference cycles *)

Lemma closed_cycle_diverges (mref : gmap string element) (cycle : list element) :
  closed_cycle NewDecoder EscapeText mref cycle = true ->
  forall fuel e, e ∈ cycle -> flattenXML fuel e mref = None.
Proof.
  intros Hc. unfold closed_cycle in Hc. rewrite forallb_forall in Hc.
  induction fuel as [|n IH]; intros e He; [done|].
  apply list_elem_of_In, Hc in He.
  apply andb_true_iff in He as [Hn Hk].
  apply negb_true_iff, bool_decide_eq_false in Hn.
  apply existsb_exists in Hk as (c & Hin & Hcyc).
  apply bool_decide_eq_true in Hcyc.
  rewrite flattenXML_unfold, decide_False by done. simpl.
  rewrite decide_True by (destruct (Children _); [done|simpl; lia]).
  rewrite (flatten_range_None _ (fun el out e' => flattenXML_no_error n el mref out e')
             _ c "" Hin (IH c Hcyc)).
  done.
Qed.

(** C5, as amended.  There is no depth limit and no set of visited
    elements: when a top-level element of the document lies in a set of
    elements each of which is flattened through a child in the same set
    (a reference cycle that the substitution pass enters), [Flatten] runs
    out of every amount of fuel. *)
Theorem entered_reference_cycle_never_returns
    (data : string) (elem : list element) (mref : gmap string element)
    (n0 : nat) (cycle : list element) :
  elements data = (elem, None) ->
  buildMRef n0 data = Some (mref, None) ->
  closed_cycle NewDecoder EscapeText mref cycle = true ->
  existsb (fun e => bool_decide (e ∈ cycle)) elem = true ->
  forall fuel, Flatten fuel data = None.
Proof.
  intros He Hb Hc Hin fuel.
  apply existsb_exists in Hin as (e & Hin & Hcyc).
  apply bool_decide_eq_true in Hcyc.
  unfold soap.Flatten.
  destruct (buildMRef fuel data) as [[m e1]|] eqn:E; [|done].
  assert (m = mref /\ e1 = None) as [-> ->].
  { pose proof (buildMRef_mono fuel (Nat.max fuel n0) data _ (Nat.le_max_l _ _) E) as H1.
    pose proof (buildMRef_mono n0 (Nat.max fuel n0) data _ (Nat.le_max_r _ _) Hb) as H2.
    rewrite H1 in H2. by injection H2 as -> ->. }
  rewrite He.
  rewrite (flatten_range_None _ (fun el out e' => flattenXML_no_error fuel el mref out e')
             _ e "" Hin (closed_cycle_diverges mref cycle Hc fuel e Hcyc)).
  done.
Qed.

(** ** Documents given as trees *)

Lemma joined_cons (x : string) (l : list string) : joined (x :: l) = x +:+ joined l.
Proof. reflexivity. Qed.

Lemma elems_cons (k : node) (kids : list node) :
  elems (k :: kids) =
  match asElement EscapeText k with
  | Some el => el :: elems kids
  | None => elems kids
  end.
Proof. reflexivity. Qed.

(** Induction on trees, with the property on all the children. *)
Lemma node_ind_kids (P : node -> Prop) :
  (forall s, P (NText s)) ->
  (forall tok, P (NOther tok)) ->
  (forall start kids, Forall P kids -> P (NElem start kids)) ->
  forall t, P t.
Proof.
  intros Htext Hother Helem.
  fix IH 1. intros [s|tok|start kids]; [apply Htext|apply Hother|].
  apply Helem. induction kids as [|k kids IHkids]; constructor; [apply IH|done].
Qed.

Lemma omap_flat_map {A B C : Type} (f : B -> option C) (g : A -> list B) (l : list A) :
  omap f (flat_map g l) = flat_map (fun x => omap f (g x)) l.
Proof.
  induction l as [|x l IH]; simpl; [done|]. by rewrite omap_app, IH.
Qed.

Lemma postorder_NElem (start : xml.StartElement) (kids : list node) :
  postorder (NElem start kids)
  = flat_map postorder kids ++ [mkElement start (joined (map markup kids))].
Proof.
  unfold postorder. cbn [postnodes].
  by rewrite omap_app, omap_flat_map.
Qed.

Lemma postorder_forest (f : list node) :
  flat_map postorder f = omap (asElement EscapeText) (flat_map postnodes f).
Proof. by rewrite omap_flat_map. Qed.

(** On the tokens of a sequence of trees followed by the end tag of
    [start], [elementData] appends the markup of the trees and stops after
    that end tag. *)
Lemma elementData_tokens (n : nat) :
  forall (kids : list node) (start : xml.StartElement) (buf : string)
         (rest : list xml.Token) (fin : error),
    forallb reparses kids = true ->
    length (flat_map tokens kids) + length rest < n ->
    elementData n
      (mkDecoder (flat_map tokens kids ++ xml.TEndElement (xml.SName start) :: rest) fin)
      start buf
    = Some (mkDecoder rest fin, buf +:+ joined (map markup kids), None).
Proof.
  induction n as [|n IH]; intros kids start buf rest fin Hk Hlen; [lia|].
  destruct kids as [|k kids].
  - simpl. rewrite decide_True by done. by rewrite append_empty_r.
  - cbn [forallb] in Hk. apply andb_true_iff in Hk as [Hk1 Hk2].
    cbn [flat_map] in *. rewrite length_app in Hlen.
    destruct k as [s|tok|st ks].
    + cbn [tokens app] in *. cbn [soap.elementData RawToken pending final].
      rewrite IH by (simpl in *; first [done|lia]).
      by rewrite map_cons, joined_cons, append_assoc.
    + cbn [tokens app] in *. cbn [soap.elementData RawToken pending final].
      simpl in Hk1.
      destruct tok; try discriminate;
        (rewrite IH by (simpl in *; first [done|lia]);
         by rewrite map_cons, joined_cons).
    + cbn [tokens] in *. simpl in Hk1. apply andb_true_iff in Hk1 as [_ Hk1].
      rewrite <- !app_comm_cons, <- !app_assoc in *. cbn [app] in *.
      cbn [soap.elementData RawToken pending final].
      cbn [length] in Hlen. rewrite length_app in Hlen. cbn [length] in Hlen.
      rewrite (IH ks st) by (rewrite ?length_app; cbn [length]; first [done|lia]).
      rewrite IH by first [done|lia].
      rewrite map_cons, joined_cons. cbn [soap.elementData markup].
      by rewrite !append_assoc.
Qed.

Lemma elements_loop_tokens (n : nat) :
  forall (f : list node) (elem : list element),
    forallb reparses f = true ->
    length (flat_map tokens f) < n ->
    elements_loop n (mkDecoder (flat_map tokens f) io_EOF) elem
    = Some (elem ++ elems f, None).
Proof.
  induction n as [|n IH]; intros f elem Hf Hlen; [lia|].
  destruct f as [|k f].
  - simpl. by rewrite app_nil_r.
  - cbn [forallb] in Hf. apply andb_true_iff in Hf as [Hk Hf].
    cbn [flat_map] in *. rewrite length_app in Hlen.
    destruct k as [s|tok|st ks].
    + cbn [tokens app] in *. cbn [soap.elements_loop RawToken pending final].
      rewrite IH by (simpl in *; first [done|lia]). done.
    + cbn [tokens app] in *. cbn [soap.elements_loop RawToken pending final].
      simpl in Hk.
      destruct tok; try discriminate;
        (rewrite IH by (simpl in *; first [done|lia]); done).
    + cbn [tokens] in *. simpl in Hk. apply andb_true_iff in Hk as [_ Hk].
      rewrite <- !app_comm_cons, <- !app_assoc in *. cbn [app] in *.
      cbn [soap.elements_loop RawToken pending final].
      cbn [length] in Hlen. rewrite length_app in Hlen. cbn [length] in Hlen.
      rewrite (elementData_tokens n ks st) by first [done|lia].
      rewrite IH by first [done|lia].
      rewrite elems_cons. cbn [asElement]. by rewrite <- app_assoc.
Qed.

(** A buffer whose tokens are those of a sequence of trees, up to a clean
    end of input, is built into the elements of these trees. *)
Lemma elements_tokens (data : string) (f : list node) :
  pending (NewDecoder data) = flat_map tokens f ->
  final (NewDecoder data) = io_EOF ->
  forallb reparses f = true ->
  elements data = (elems f, None).
Proof.
  intros Hp Hfin Hf. unfold soap.elements.
  destruct (NewDecoder data) as [toks fin]. cbn [pending final] in *. subst toks fin.
  by rewrite elements_loop_tokens by first [done|lia].
Qed.

Lemma depth_kids (k : node) (kids : list node) (n : nat) :
  list_max (map depth (k :: kids)) < n ->
  depth k < n /\ list_max (map depth kids) < n.
Proof. simpl. lia. Qed.


Lemma visitAll_cons (visit : element -> option (list element)) (el : element)
    (rest : list element) :
  visitAll visit (el :: rest) =
  match visit el, visitAll visit rest with
  | Some l, Some ls => Some (l ++ ls)
  | _, _ => None
  end.
Proof. reflexivity. Qed.

Lemma visitOrder_S (n : nat) (root : element) :
  visitOrder (S n) root =
  match visitAll (visitOrder n) (Children root) with
  | Some l => Some (l ++ [root])
  | None => None
  end.
Proof. reflexivity. Qed.

(** On a tree that the decoder reads back, the visiting order is the
    post-order of the tree. *)
Lemma visitAll_tree (n : nat) :
  forall kids : list node,
    forallb reparses kids = true ->
    list_max (map depth kids) < n ->
    visitAll (visitOrder n) (elems kids) = Some (flat_map postorder kids).
Proof.
  induction n as [|n IH]; intros kids Hk Hd; [lia|].
  induction kids as [|k kids IHk]; [done|].
  cbn [forallb] in Hk. apply andb_true_iff in Hk as [Hk1 Hk2].
  apply depth_kids in Hd as [Hd1 Hd2].
  rewrite elems_cons. destruct k as [s|tok|st ks]; cbn [asElement];
    try (by apply IHk).
  rewrite visitAll_cons, visitOrder_S.
  simpl in Hk1. apply andb_true_iff in Hk1 as [Hc Hks].
  apply bool_decide_eq_true in Hc. rewrite Hc.
  rewrite (IH ks Hks) by (simpl in Hd1; lia).
  rewrite (IHk Hk2 Hd2). cbn [flat_map]. by rewrite postorder_NElem.
Qed.

(** C7, as amended.  The index pass visits the elements that [Children]
    derives, in post-order: the subtrees of the children, in order, then
    the element itself; an element whose stored content cannot be read back
    is visited alone, without the elements inside it.  An element is
    recorded when it has an attribute with the local name id, whatever the
    prefix, under the value of the first such attribute; every visited
    element that is recorded is bound in the index, and a value that
    several visited elements are recorded under ends up bound to the one
    visited last.  For a document given as trees that the decoder reads
    back, the order is the post-order of the trees, so every element of the
    document is visited. *)
Theorem index_pass_is_post_order_last_wins
    (fuel : nat) (data : string) (elem : list element) :
  elements data = (elem, None) ->
  (forall root,
     visitOrder (S fuel) root
     = (fun l => l ++ [root]) <$> visitAll (visitOrder fuel) (Children root))
  /\ match visitAll (visitOrder fuel) elem with
     | Some order =>
         buildMRef fuel data = Some (foldl record ∅ order, None)
         /\ (forall id, foldl record ∅ order !! id = last_with_id id order)
         /\ (forall el id,
               el ∈ order -> findId (Attr el) = (id, true) ->
               exists el', foldl record ∅ order !! id = Some el'
                           /\ findId (Attr el') = (id, true))
     | None => buildMRef fuel data = None
     end
  /\ (forall f : list node,
        pending (NewDecoder data) = flat_map tokens f ->
        final (NewDecoder data) = io_EOF ->
        forallb reparses f = true ->
        list_max (map depth f) < fuel ->
        visitAll (visitOrder fuel) elem = Some (flat_map postorder f))
  /\ (forall root r err,
        elements (Data root) = (r, Some err) ->
        visitOrder (S fuel) root = Some [root])
  /\ (forall l,
        findId l =
        match List.find (fun a => bool_decide (xml.Local (xml.AName a) = "id")) l with
        | Some a => (xml.Value a, true)
        | None => ("", false)
        end).
Proof.
  intros He. split.
  { intros root. simpl. by destruct (visitAll _ _). }
  split; [|split; [|split]].
  2: { intros f Hp Hfin Hr Hd.
       rewrite (elements_tokens data f Hp Hfin Hr) in He. injection He as <-.
       by apply visitAll_tree. }
  2: { intros root r err. apply visitOrder_unreadable. }
  2: { intros l. unfold findId. by rewrite findAttr_any_space. }
  unfold soap.buildMRef. rewrite He.
  rewrite (walk_range_visitAll _ _ (walkMultiRef_visitOrder fuel)).
  destruct (visitAll _ elem) as [order|]; simpl; [|done].
  assert (Hl : forall id, foldl record ∅ order !! id = last_with_id id order).
  { intros id. rewrite foldl_record_lookup.
    destruct (last_with_id id order); [done|]. apply lookup_empty. }
  split; [done|]. split; [done|].
  intros el id Hin Hid. rewrite Hl. unfold last_with_id.
  assert (Hf : el ∈ filter (fun el => findId (Attr el) = (id, true)) order)
    by (apply list_elem_of_filter; done).
  destruct (last (filter _ order)) as [el'|] eqn:El.
  - exists el'. split; [done|].
    apply last_Some in El as [l' El].
    assert (Hin' : el' ∈ filter (fun el => findId (Attr el) = (id, true)) order)
      by (rewrite El; set_solver).
    by apply list_elem_of_filter in Hin' as [? _].
  - apply last_None in El. rewrite El in Hf. by apply elem_of_nil in Hf.
Qed.


Lemma elems_nil_iff (kids : list node) :
  forallb (fun k => negb (is_elem k)) kids = true <-> elems kids = [].
Proof.
  induction kids as [|k kids IH]; [done|].
  rewrite elems_cons. destruct k; simpl; try done.
Qed.




(** ** Flattening on trees *)


(** [Children] looks at the content only. *)
Lemma Children_Data (a b : element) : Data a = Data b -> Children a = Children b.
Proof. unfold soap.Children. by intros ->. Qed.

Lemma reparses_NElem (start : xml.StartElement) (kids : list node) :
  reparses (NElem start kids) = true ->
  (forall start', Children (mkElement start' (joined (map markup kids))) = elems kids)
  /\ forallb reparses kids = true.
Proof.
  simpl. intros H. apply andb_true_iff in H as [Hc Hk].
  apply bool_decide_eq_true in Hc. split; [|done].
  intros start'. rewrite <- Hc. by apply Children_Data.
Qed.

Lemma reparses_postnodes (t : node) :
  reparses t = true -> Forall (fun t' => reparses t' = true) (postnodes t).
Proof.
  induction t as [s|tok|start kids IH] using node_ind_kids; intros Hr;
    [constructor|constructor|].
  cbn [postnodes]. apply Forall_app. split; [|by repeat constructor].
  apply reparses_NElem in Hr as [_ Hk].
  induction kids as [|k kids IHk]; [constructor|].
  cbn [forallb] in Hk. apply andb_true_iff in Hk as [Hk1 Hk2].
  apply Forall_cons in IH as [IH1 IH2].
  cbn [flat_map]. apply Forall_app. split; [by apply IH1|by apply IHk].
Qed.

Lemma reparses_postnodes_forest (f : list node) :
  forallb reparses f = true ->
  Forall (fun t' => reparses t' = true) (flat_map postnodes f).
Proof.
  induction f as [|t f IH]; [constructor|].
  cbn [forallb flat_map]. intros H. apply andb_true_iff in H as [H1 H2].
  apply Forall_app. split; [by apply reparses_postnodes|by apply IH].
Qed.

Lemma index_agrees_foldl (pn : list node) :
  forall mref idx,
    index_agrees mref idx ->
    index_agrees (foldl record mref (omap (asElement EscapeText) pn))
                 (foldl record_node idx pn).
Proof.
  induction pn as [|t pn IH]; intros mref idx Ha; [done|].
  destruct t as [s|tok|start kids]; cbn [omap asElement foldl]; try by apply IH.
  apply IH. unfold record, record_node, Attr. cbn [Start].
  destruct (findId (xml.SAttr start)) as [id []]; [|done].
  intros id'. destruct (decide (id = id')) as [->|Hne].
  - by rewrite !lookup_insert_eq.
  - rewrite !lookup_insert_ne by done. apply Ha.
Qed.

Lemma index_reparses_foldl (pn : list node) :
  Forall (fun t => reparses t = true) pn ->
  forall idx, index_reparses idx -> index_reparses (foldl record_node idx pn).
Proof.
  induction 1 as [|t pn Ht Hpn IH]; intros idx Hi; [done|].
  cbn [foldl]. apply IH. destruct t as [s|tok|start kids]; try done.
  cbn [record_node]. destruct (findId (xml.SAttr start)) as [id []]; [|done].
  intros id' kids'. destruct (decide (id = id')) as [->|Hne].
  - rewrite lookup_insert_eq. intros [= <-]. by apply (reparses_NElem start).
  - rewrite lookup_insert_ne by done. apply Hi.
Qed.

(** The loop over the child elements, against [flat_all]. *)
Lemma flatten_range_flat_all
    (flatten : element -> option (string * option error))
    (flat1 : node -> option string) :
  (forall start kids,
     reparses (NElem start kids) = true ->
     flatten (mkElement start (joined (map markup kids)))
     = (fun out => (out, None)) <$> flat1 (NElem start kids)) ->
  (forall s, flat1 (NText s) = Some "") ->
  (forall tok, flat1 (NOther tok) = Some "") ->
  forall kids buf,
    forallb reparses kids = true ->
    flatten_range flatten (elems kids) buf
    = (fun outs => (buf +:+ outs, None)) <$> flat_all flat1 kids.
Proof.
  intros Helem Htext Hother kids.
  induction kids as [|k kids IH]; intros buf Hk.
  { simpl. by rewrite append_empty_r. }
  cbn [forallb] in Hk. apply andb_true_iff in Hk as [Hk1 Hk2].
  rewrite elems_cons. cbn [flat_all].
  destruct k as [s|tok|start ks]; cbn [asElement].
  - rewrite Htext, IH by done. by destruct (flat_all flat1 kids).
  - rewrite Hother, IH by done. by destruct (flat_all flat1 kids).
  - cbn [flatten_range]. rewrite Helem by done.
    destruct (flat1 (NElem start ks)) as [out|]; simpl; [|done].
    rewrite IH by done. destruct (flat_all flat1 kids) as [outs|]; simpl; [|done].
    by rewrite append_assoc.
Qed.

Lemma flat_S (n : nat) (idx : gmap string (list node)) (start : xml.StartElement)
    (kids : list node) :
  flat (S n) idx (NElem start kids) =
  if decide (xml.Local (xml.SName start) = "multiRef") then Some ""
  else
    let kids' :=
      match findHref (xml.SAttr start) with
      | (href, true) => default kids (idx !! href)
      | (_, false) => kids
      end in
    if forallb (fun k => negb (is_elem k)) kids'
    then Some (marshal (mkElement start (joined (map markup kids'))))
    else (fun body => marshal (mkElement start body)) <$> flat_all (flat n idx) kids'.
Proof. reflexivity. Qed.

(** The substitution pass on the element of a tree is [flat] on the
    tree. *)
Lemma flattenXML_flat (mref : gmap string element) (idx : gmap string (list node)) :
  index_agrees mref idx ->
  index_reparses idx ->
  forall n start kids,
    reparses (NElem start kids) = true ->
    flattenXML n (mkElement start (joined (map markup kids))) mref
    = (fun out => (out, None)) <$> flat n idx (NElem start kids).
Proof.
  intros Ha Hi. induction n as [|n IH]; intros start kids Hr; [done|].
  rewrite flattenXML_unfold, flat_S. unfold Name. cbn [Start].
  case_decide as Hname; [done|]. cbn zeta.
  set (kids' := match findHref (xml.SAttr start) with
                | (href, true) => default kids (idx !! href)
                | (_, false) => kids
                end).
  assert (Hs : substituted mref (mkElement start (joined (map markup kids)))
               = mkElement start (joined (map markup kids'))
               /\ (forall start',
                     Children (mkElement start' (joined (map markup kids')))
                     = elems kids')
               /\ forallb reparses kids' = true).
  { unfold substituted, Attr, kids'. cbn [Start].
    destruct (findHref (xml.SAttr start)) as [href []];
      [|split; [done|by apply (reparses_NElem start)]].
    pose proof (Ha href) as Hh.
    destruct (mref !! href) as [el|], (idx !! href) as [tk|] eqn:Ei;
      try discriminate; simpl in *.
    - injection Hh as ->. split; [done|]. by apply (Hi href).
    - split; [done|by apply (reparses_NElem start)]. }
  destruct Hs as (-> & Hc & Hk). rewrite Hc.
  destruct (forallb (fun k => negb (is_elem k)) kids') eqn:Ee.
  - apply elems_nil_iff in Ee. rewrite Ee. by rewrite decide_False by (simpl; lia).
  - assert (Hne : elems kids' <> []).
    { intros Hnil. apply elems_nil_iff in Hnil. congruence. }
    rewrite decide_True by (destruct (elems kids'); [done|simpl; lia]).
    rewrite (flatten_range_flat_all (fun el => flattenXML n el mref) (flat n idx));
      [|exact IH|by destruct n|by destruct n|done].
    destruct (flat_all _ kids') as [outs|]; simpl; [|done].
    by rewrite append_empty_l.
Qed.

(** [Flatten] on a document given as trees that the decoder reads back is
    [flat] on the trees, with the index of the trees. *)
Lemma Flatten_flat (data : string) (f : list node) (fuel : nat) :
  pending (NewDecoder data) = flat_map tokens f ->
  final (NewDecoder data) = io_EOF ->
  forallb reparses f = true ->
  list_max (map depth f) < fuel ->
  Flatten fuel data
  = (fun out => (out, None)) <$> flat_all (flat fuel (tree_index f)) f.
Proof.
  intros Hp Hfin Hr Hd.
  pose proof (elements_tokens data f Hp Hfin Hr) as He.
  unfold soap.Flatten, soap.buildMRef. rewrite He.
  rewrite (walk_range_visitAll _ _ (walkMultiRef_visitOrder fuel)).
  rewrite (visitAll_tree fuel f Hr Hd). cbn [fmap option_fmap option_map].
  rewrite (flatten_range_flat_all _ (flat fuel (tree_index f)));
    [|apply flattenXML_flat|by destruct fuel|by destruct fuel|done].
  - destruct (flat_all _ f) as [outs|]; simpl; [|done]. by rewrite append_empty_l.
  - rewrite postorder_forest. by apply index_agrees_foldl.
  - apply index_reparses_foldl; [by apply reparses_postnodes_forest|done].
Qed.


(** C2, as amended.  The substitution pass returns the empty text, with
    no error, for every element named multiRef that it is given, so in the
    loop that flattens a list of siblings such an element contributes
    nothing; and a placeholder (not itself named multiRef) whose href
    resolves to an element [target] is written under its own start tag with
    the content of [target]: as it is stored when that content has no child
    elements, and else with these child elements flattened in turn and
    nothing of the character data beside them.  For a document given as
    trees that the decoder reads back, what [Flatten] returns is [flat] on
    the trees with the index of the trees: elements named multiRef are left
    out, and a placeholder carries the content bound to its id, in that
    form.  An element whose content, after the href step, cannot be read
    back is written with that content as it is stored, so what is named
    multiRef inside it stays and what is a placeholder inside it is not
    filled. *)
Theorem multiRef_is_dropped_and_inlined (fuel : nat) (mref : gmap string element) :
  (forall root, xml.Local (Name root) = "multiRef" ->
                flattenXML (S fuel) root mref = Some ("", None))
  /\ (forall els1 root els2 buf,
        xml.Local (Name root) = "multiRef" ->
        flatten_range (fun el => flattenXML (S fuel) el mref) (els1 ++ root :: els2) buf
        = flatten_range (fun el => flattenXML (S fuel) el mref) (els1 ++ els2) buf)
  /\ (forall site id target,
        xml.Local (Name site) <> "multiRef" ->
        findHref (Attr site) = (id, true) ->
        mref !! id = Some target ->
        let kids := Children (mkElement (Start site) (Data target)) in
        flattenXML (S fuel) site mref =
        if decide (kids = []) then
          Some (marshal (mkElement (Start site) (Data target)), None)
        else
          match flatten_range (fun c => flattenXML fuel c mref) kids "" with
          | Some (accum, None) => Some (marshal (mkElement (Start site) accum), None)
          | Some (_, Some err) => Some ("", Some err)
          | None => None
          end)
  /\ (forall data f,
        pending (NewDecoder data) = flat_map tokens f ->
        final (NewDecoder data) = io_EOF ->
        forallb reparses f = true ->
        list_max (map depth f) < fuel ->
        Flatten fuel data
        = (fun out => (out, None)) <$> flat_all (flat fuel (tree_index f)) f)
  /\ (forall idx start kids,
        xml.Local (xml.SName start) = "multiRef" ->
        flat (S fuel) idx (NElem start kids) = Some "")
  /\ (forall idx start kids id target,
        xml.Local (xml.SName start) <> "multiRef" ->
        findHref (xml.SAttr start) = (id, true) ->
        idx !! id = Some target ->
        forallb (fun k => negb (is_elem k)) target = true ->
        flat (S fuel) idx (NElem start kids)
        = Some (marshal (mkElement start (joined (map markup target)))))
  /\ (forall idx start kids id target,
        xml.Local (xml.SName start) <> "multiRef" ->
        findHref (xml.SAttr start) = (id, true) ->
        idx !! id = Some target ->
        forallb (fun k => negb (is_elem k)) target = false ->
        flat (S fuel) idx (NElem start kids)
        = (fun body => marshal (mkElement start body))
            <$> flat_all (flat fuel idx) target)
  /\ (forall idx s, flat fuel idx (NText s) = Some "")
  /\ (forall root r err,
        xml.Local (Name root) <> "multiRef" ->
        elements (Data (substituted mref root)) = (r, Some err) ->
        flattenXML (S fuel) root mref
        = Some (marshal (substituted mref root), None)).
Proof.
  assert (Hdrop : forall root, xml.Local (Name root) = "multiRef" ->
                               flattenXML (S fuel) root mref = Some ("", None)).
  { intros root H. by rewrite flattenXML_unfold, decide_True. }
  split; [done|]. split; [|split; [|split; [|split; [|split; [|split; [|split]]]]]].
  - intros els1 root els2 buf H. rewrite !flatten_range_app.
    destruct (flatten_range _ els1 buf) as [[o [e|]]|]; try done.
    cbn [flatten_range]. by rewrite (Hdrop root H), append_empty_r.
  - intros site id target Hn Hh Hm kids.
    rewrite flattenXML_unfold, decide_False by done. simpl.
    assert (Hs : substituted mref site = mkElement (Start site) (Data target))
      by (unfold substituted; by rewrite Hh, Hm).
    rewrite Hs. fold kids. simpl. destruct kids as [|k kids'].
    + rewrite decide_False by (simpl; lia). by rewrite decide_True.
    + rewrite decide_True by (simpl; lia). by rewrite decide_False.
  - intros data f. apply Flatten_flat.
  - intros idx start kids H. by rewrite flat_S, decide_True.
  - intros idx start kids id target Hn Hh Hi Ht.
    rewrite flat_S, decide_False by done. cbn zeta.
    rewrite Hh, Hi. simpl. by rewrite Ht.
  - intros idx start kids id target Hn Hh Hi Ht.
    rewrite flat_S, decide_False by done. cbn zeta.
    rewrite Hh, Hi. simpl. by rewrite Ht.
  - intros idx s. by destruct fuel.
  - intros root r err. apply flattenXML_unreadable.
Qed.

(** ** More on the tree builder *)

(** [elementData], with the start tags that stay open. *)
Lemma elementData_open (n : nat) :
  forall (p : Decoder) (start : xml.StartElement) (buf : string)
         (open : list xml.Name),
    length (pending p) < n ->
    exists p' buf' e,
      elementData n p start buf = Some (p', buf', e)
      /\ length (pending p') <= length (pending p)
      /\ final p' = final p
      /\ match e with
         | None =>
             first_mismatch (xml.SName start :: open) (pending p)
             = first_mismatch open (pending p')
             /\ still_open (xml.SName start :: open) (pending p)
                = still_open open (pending p')
         | Some _ =>
             first_mismatch (xml.SName start :: open) (pending p) = None ->
             still_open (xml.SName start :: open) (pending p) <> []
         end.
Proof.
  induction n as [|n IH]; intros [toks fin] start buf open Hlen; [lia|].
  destruct toks as [|tok rest]; cbn [pending final length] in *.
  { eexists _, _, _. split; [reflexivity|]. repeat split; done. }
  destruct tok as [s|nm|s|s|t i|s];
    cbn [soap.elementData RawToken pending final first_mismatch still_open];
    try (destruct (IH (mkDecoder rest fin) start buf open)
           as (p1 & b1 & e1 & -> & Hl1 & Hf1 & H1); [simpl; lia|];
         eexists _, _, _; split; [reflexivity|];
         split; [simpl in *; lia|]; split; done).
  - destruct (IH (mkDecoder rest fin) s (buf +:+ StartTag s)
                (xml.SName start :: open)) as (p1 & b1 & e1 & -> & Hl1 & Hf1 & H1);
      [simpl; lia|].
    cbn [pending final] in *. destruct e1 as [err|].
    + eexists _, _, _. split; [reflexivity|]. split; [lia|]. split; done.
    + destruct H1 as [Hm Ho].
      destruct (IH p1 start (b1 +:+ EndTag s) open)
        as (p2 & b2 & e2 & -> & Hl2 & Hf2 & H2); [lia|].
      eexists _, _, _. split; [reflexivity|]. split; [lia|].
      split; [congruence|]. rewrite Hm, Ho. done.
  - case_decide as Hn.
    + eexists _, _, _. split; [reflexivity|]. repeat split; simpl; lia.
    + eexists _, _, _. split; [reflexivity|]. repeat split; simpl; try lia.
      done.
  - destruct (IH (mkDecoder rest fin) start (buf +:+ EscapeText s) open)
      as (p1 & b1 & e1 & -> & Hl1 & Hf1 & H1); [simpl; lia|].
    eexists _, _, _. split; [reflexivity|].
    split; [simpl in *; lia|]. split; done.
Qed.

Lemma elements_loop_open (n : nat) :
  forall (p : Decoder) (elem : list element),
    length (pending p) < n ->
    exists r e,
      elements_loop n p elem = Some (r, e)
      /\ (e = None <->
          first_mismatch [] (pending p) = None
          /\ still_open [] (pending p) = []
          /\ final p = io_EOF).
Proof.
  induction n as [|n IH]; intros [toks fin] elem Hlen; [lia|].
  destruct toks as [|tok rest]; cbn [pending final length] in *.
  { cbn [soap.elements_loop RawToken pending final].
    case_decide; eexists _, _; (split; [reflexivity|]); simpl;
      [done|split; [done|by intros (_ & _ & ?)]]. }
  destruct tok as [s|nm|s|s|t i|s];
    cbn [soap.elements_loop RawToken pending final first_mismatch still_open];
    try (destruct (IH (mkDecoder rest fin) elem) as (r & e & -> & H);
         [simpl; lia|]; eexists _, _; split; [reflexivity|]; exact H).
  destruct (elementData_open n (mkDecoder rest fin) s "" [])
    as (p1 & b1 & e1 & -> & Hl1 & Hf1 & H1); [simpl; lia|].
  cbn [pending final] in *. destruct e1 as [err|].
  - eexists _, _; split; [reflexivity|]. split; [done|].
    intros (Hm & Ho & _). by apply H1 in Hm.
  - destruct H1 as [Hm Ho].
    destruct (IH p1 (elem ++ [mkElement s b1])) as (r & e & -> & H); [lia|].
    eexists _, _; split; [reflexivity|]. rewrite Hm, Ho, <- Hf1. exact H.
Qed.

(** X1.  The tree build succeeds exactly when the token stream has no end
    tag that differs from the open start tag, leaves no start tag open, and
    ends with a clean end of input.  When a start tag is left open and no
    end tag is wrong, the error returned is the one the decoder ended with,
    so [io.EOF] for a document that is cut off. *)
Theorem elements_succeeds_iff_balanced (data : string) :
  ((elements data).2 = None <->
   first_mismatch [] (pending (NewDecoder data)) = None
   /\ still_open [] (pending (NewDecoder data)) = []
   /\ final (NewDecoder data) = io_EOF)
  /\ (first_mismatch [] (pending (NewDecoder data)) = None ->
      still_open [] (pending (NewDecoder data)) <> [] ->
      elements data = ([], Some (final (NewDecoder data)))).
Proof.
  assert (Hiff : (elements data).2 = None <->
                 first_mismatch [] (pending (NewDecoder data)) = None
                 /\ still_open [] (pending (NewDecoder data)) = []
                 /\ final (NewDecoder data) = io_EOF).
  { unfold soap.elements.
    destruct (elements_loop_open (S (length (pending (NewDecoder data))))
                (NewDecoder data) []) as (r & e & -> & H); [lia|].
    exact H. }
  split; [exact Hiff|]. intros Hm Ho.
  pose proof (elements_spec data) as Hs.
  destruct (elements data) as [r [err|]] eqn:E; simpl in *.
  - rewrite Hm in Hs. by destruct Hs as [-> ->].
  - destruct Hiff as [Hiff _]. destruct (Hiff eq_refl) as (_ & Ho' & _). done.
Qed.

Lemma elements_loop_no_start (n : nat) :
  forall (p : Decoder) (elem : list element),
    length (pending p) < n ->
    forallb (fun tok => negb (is_start tok)) (pending p) = true ->
    elements_loop n p elem
    = Some (if decide (final p = io_EOF) then (elem, None) else ([], Some (final p))).
Proof.
  induction n as [|n IH]; intros [toks fin] elem Hlen Hs; [lia|].
  destruct toks as [|tok rest]; cbn [pending final length] in *.
  { simpl. by case_decide. }
  cbn [forallb] in Hs. apply andb_true_iff in Hs as [Ht Hs].
  destruct tok; try discriminate;
    cbn [soap.elements_loop RawToken pending final];
    (rewrite IH by (simpl; first [done|lia]); done).
Qed.

(** X2.  A buffer in which the decoder finds no start tag (the empty
    buffer, character data, comments, end tags that close nothing) and
    that ends cleanly has no elements; the tree build does not fail on it,
    and [Flatten] returns the empty buffer and no error, with any fuel. *)
Theorem no_start_tag_no_output (data : string) :
  forallb (fun tok => negb (is_start tok)) (pending (NewDecoder data)) = true ->
  final (NewDecoder data) = io_EOF ->
  elements data = ([], None)
  /\ forall fuel, Flatten fuel data = Some ("", None).
Proof.
  intros Hs Hf.
  assert (He : elements data = ([], None)).
  { unfold soap.elements. rewrite elements_loop_no_start by first [done|lia].
    by rewrite decide_True. }
  split; [done|]. intros fuel.
  unfold soap.Flatten, soap.buildMRef. by rewrite He.
Qed.

Lemma elementData_wellformed (n : nat) :
  forall (kids : list node) (start : xml.StartElement) (buf : string)
         (rest : list xml.Token) (fin : error),
    forallb wellformed kids = true ->
    length (flat_map tokens kids) + length rest < n ->
    elementData n
      (mkDecoder (flat_map tokens kids ++ xml.TEndElement (xml.SName start) :: rest) fin)
      start buf
    = Some (mkDecoder rest fin, buf +:+ joined (map markup kids), None).
Proof.
  induction n as [|n IH]; intros kids start buf rest fin Hk Hlen; [lia|].
  destruct kids as [|k kids].
  - simpl. rewrite decide_True by done. by rewrite append_empty_r.
  - cbn [forallb] in Hk. apply andb_true_iff in Hk as [Hk1 Hk2].
    cbn [flat_map] in *. rewrite length_app in Hlen.
    destruct k as [s|tok|st ks].
    + cbn [tokens app] in *. cbn [soap.elementData RawToken pending final].
      rewrite IH by (simpl in *; first [done|lia]).
      by rewrite map_cons, joined_cons, append_assoc.
    + cbn [tokens app] in *. cbn [soap.elementData RawToken pending final].
      simpl in Hk1.
      destruct tok; try discriminate;
        (rewrite IH by (simpl in *; first [done|lia]);
         by rewrite map_cons, joined_cons).
    + cbn [tokens] in *. cbn [wellformed] in Hk1.
      rewrite <- !app_comm_cons, <- !app_assoc in *. cbn [app] in *.
      cbn [soap.elementData RawToken pending final].
      cbn [length] in Hlen. rewrite length_app in Hlen. cbn [length] in Hlen.
      rewrite (IH ks st) by (rewrite ?length_app; cbn [length]; first [done|lia]).
      rewrite IH by first [done|lia].
      rewrite map_cons, joined_cons. cbn [soap.elementData markup].
      by rewrite !append_assoc.
Qed.

Lemma elements_loop_wellformed (n : nat) :
  forall (f : list node) (elem : list element),
    forallb wellformed f = true ->
    length (flat_map tokens f) < n ->
    elements_loop n (mkDecoder (flat_map tokens f) io_EOF) elem
    = Some (elem ++ elems f, None).
Proof.
  induction n as [|n IH]; intros f elem Hf Hlen; [lia|].
  destruct f as [|k f].
  - simpl. by rewrite app_nil_r.
  - cbn [forallb] in Hf. apply andb_true_iff in Hf as [Hk Hf].
    cbn [flat_map] in *. rewrite length_app in Hlen.
    destruct k as [s|tok|st ks].
    + cbn [tokens app] in *. cbn [soap.elements_loop RawToken pending final].
      rewrite IH by (simpl in *; first [done|lia]). done.
    + cbn [tokens app] in *. cbn [soap.elements_loop RawToken pending final].
      simpl in Hk.
      destruct tok; try discriminate;
        (rewrite IH by (simpl in *; first [done|lia]); done).
    + cbn [tokens] in *. cbn [wellformed] in Hk.
      rewrite <- !app_comm_cons, <- !app_assoc in *. cbn [app] in *.
      cbn [soap.elements_loop RawToken pending final].
      cbn [length] in Hlen. rewrite length_app in Hlen. cbn [length] in Hlen.
      rewrite (elementData_wellformed n ks st) by first [done|lia].
      rewrite IH by first [done|lia].
      rewrite elems_cons. cbn [asElement]. by rewrite <- app_assoc.
Qed.

(** X3.  On a buffer whose tokens are those of a sequence of trees, up to a
    clean end of input, the tree build returns one element for each
    top-level element, in order, with its name and attributes, whose
    content is the markup of what lies inside: nested elements as start
    tag, content and end tag, character data escaped, and nothing for
    comments, processing instructions and directives.  Character data and
    other tokens at top level give no element. *)
Theorem elements_of_a_tree (data : string) (f : list node) :
  pending (NewDecoder data) = flat_map tokens f ->
  final (NewDecoder data) = io_EOF ->
  forallb wellformed f = true ->
  elements data = (elems f, None)
  /\ length (elements data).1 = length (filter is_elem f)
  /\ forall start, Children (mkElement start data) = elems f.
Proof.
  intros Hp Hfin Hf.
  assert (He : elements data = (elems f, None)).
  { unfold soap.elements.
    destruct (NewDecoder data) as [toks fin]. cbn [pending final] in *. subst toks fin.
    by rewrite elements_loop_wellformed by first [done|lia]. }
  split; [done|]. split.
  - rewrite He. cbn [fst]. clear. induction f as [|k f IH]; [done|].
    rewrite elems_cons, filter_cons. destruct k; simpl; by rewrite ?IH.
  - intros start. unfold soap.Children. cbn [Data]. by rewrite He.
Qed.

(** ** More on attributes and on the substitution pass *)

(** X4.  [findAttr] returns the first attribute of the list that passes its
    test, and nothing exactly when no attribute passes it.  With an empty
    [space] the test is on the local name alone, so an attribute with a
    prefix is found as well. *)
Theorem findAttr_first_match (l : list xml.Attr) (space name : string) :
  match findAttr l space name with
  | Some v =>
      exists l1 l2,
        l = l1 ++ v :: l2
        /\ attr_matches space name v
        /\ Forall (fun a => ~ attr_matches space name a) l1
  | None => Forall (fun a => ~ attr_matches space name a) l
  end.
Proof.
  induction l as [|a l IH]; simpl; [constructor|].
  case_decide as Ha.
  - exists [], l. split; [done|]. split; [exact Ha|constructor].
  - destruct (findAttr l space name) as [v|].
    + destruct IH as (l1 & l2 & -> & Hv & Hl1).
      exists (a :: l1), l2. split; [done|]. split; [exact Hv|].
      constructor; [exact Ha|exact Hl1].
    + constructor; [exact Ha|exact IH].
Qed.

Lemma marshal_prefix (el : element) :
  exists rest,
    marshal el = String "<" (tmplName (Name el) +:+ tmplAttr (Attr el) +:+ rest).
Proof.
  unfold marshal, EmptyTag, StartTag, EndTag, Name, Attr. case_decide.
  - by eexists.
  - eexists. rewrite !append_assoc. reflexivity.
Qed.

(** X5.  What the substitution pass returns for an element is the empty
    text exactly when the element is named multiRef; for any other element
    it begins with the element's own name and all its attributes, in
    order and with their values, the href attribute of a placeholder
    included. *)
Theorem flattenXML_keeps_the_start_tag
    (fuel : nat) (root : element) (mref : gmap string element)
    (out : string) (e : option error) :
  flattenXML fuel root mref = Some (out, e) ->
  e = None
  /\ (out = "" <-> xml.Local (Name root) = "multiRef")
  /\ (xml.Local (Name root) <> "multiRef" ->
      exists rest,
        out = "<" +:+ tmplName (Name root) +:+ tmplAttr (Attr root) +:+ rest).
Proof.
  intros H. pose proof (flattenXML_no_error _ _ _ _ _ H) as ->. split; [done|].
  destruct fuel as [|fuel]; [done|].
  rewrite flattenXML_unfold in H. case_decide as Hn.
  - injection H as <-. split; [done|]. done.
  - assert (Hm : exists body, out = marshal (mkElement (Start root) body)).
    { cbn zeta in H. case_decide.
      - destruct (flatten_range _ _ _) as [[d [err|]]|]; try discriminate.
        injection H as <-. rewrite substituted_Start. by eexists.
      - injection H as <-. exists (Data (substituted mref root)).
        rewrite <- (substituted_Start mref root). by destruct (substituted mref root). }
    destruct Hm as [body ->].
    destruct (marshal_prefix (mkElement (Start root) body)) as [rest Hr].
    rewrite Hr. split; [split; [discriminate|done]|].
    intros _. by exists rest.
Qed.

Lemma flatten_range_all_multiRef (fuel : nat) (mref : gmap string element) :
  forall els buf,
    Forall (fun c => xml.Local (Name c) = "multiRef") els ->
    flatten_range (fun c => flattenXML (S fuel) c mref) els buf = Some (buf, None).
Proof.
  induction els as [|c els IH]; intros buf Hc; [done|].
  apply Forall_cons in Hc as [Hc Hels]. cbn [flatten_range].
  rewrite flattenXML_unfold, decide_True by done.
  rewrite append_empty_r. by apply IH.
Qed.

(** X6.  An element (not itself named multiRef) all of whose child
    elements are named multiRef is written as an empty-element tag: the
    children are dropped, and so is the character data it had beside
    them. *)
Theorem only_multiRef_children_leave_an_empty_tag
    (fuel : nat) (root : element) (mref : gmap string element) :
  xml.Local (Name root) <> "multiRef" ->
  Children (substituted mref root) <> [] ->
  Forall (fun c => xml.Local (Name c) = "multiRef") (Children (substituted mref root)) ->
  flattenXML (S (S fuel)) root mref = Some (EmptyTag (Start root), None).
Proof.
  intros Hn Hne Hall.
  rewrite flattenXML_unfold, decide_False by done. cbn zeta.
  rewrite decide_True by (destruct (Children _); [done|simpl; lia]).
  rewrite flatten_range_all_multiRef by done.
  by rewrite substituted_Start.
Qed.

(** X7.  [Unmarshal] hands to [xml.Unmarshal] exactly the buffer that
    [Flatten] returns, and only when [Flatten] returns no error; otherwise
    the error is the one of the tree build on the whole buffer and the
    target is left as it was. *)
Theorem Unmarshal_decodes_what_Flatten_returns
    (V : Type) (xml_Unmarshal : string -> V -> V * option error)
    (fuel : nat) (data : string) (v v' : V) (e : option error) :
  Unmarshal NewDecoder EscapeText V xml_Unmarshal fuel data v = Some (v', e) ->
  (exists out, Flatten fuel data = Some (out, None)
               /\ xml_Unmarshal out v = (v', e))
  \/ (exists err, Flatten fuel data = Some ("", Some err)
                  /\ (elements data).2 = Some err
                  /\ e = Some err /\ v' = v).
Proof.
  unfold Unmarshal. destruct (Flatten fuel data) as [[out [err|]]|] eqn:E; [| |done].
  - intros [= <- <-]. right. exists err.
    pose proof (Flatten_error_inv fuel data out err E) as [-> He]. done.
  - intros [= H]. left. by exists out.
Qed.

(** X8.  When the envelope of a response carries a Fault, [Parse] returns
    that Fault as its error without flattening the body, so with any fuel,
    and the target is left as it was.  [Parse] changes the target only when
    the body was read without error, the envelope decoded without error
    and without a Fault, and [Flatten] returned a buffer and no error; the
    target is then what [xml.Unmarshal] makes of that buffer. *)
Theorem Parse_returns_the_fault
    (V : Type) (xml_Unmarshal : string -> V -> V * option error)
    (xml_Unmarshal_msg : string -> option Fault * option error)
    (buf : string) (v : V) :
  (forall f fuel,
     xml_Unmarshal_msg buf = (Some f, None) ->
     Parse NewDecoder EscapeText V xml_Unmarshal xml_Unmarshal_msg fuel (buf, None) v
     = Some (v, Some (fault f)))
  /\ (forall fuel rerr v' e,
        Parse NewDecoder EscapeText V xml_Unmarshal xml_Unmarshal_msg fuel (buf, rerr) v
        = Some (v', e) ->
        (v' = v /\ e <> None)
        \/ (rerr = None /\ xml_Unmarshal_msg buf = (None, None)
            /\ exists out e0,
                 Flatten fuel buf = Some (out, None)
                 /\ xml_Unmarshal out v = (v', e0) /\ e = (failure <$> e0))).
Proof.
  split.
  - intros f fuel H. unfold Parse. by rewrite H.
  - intros fuel rerr v' e. unfold Parse.
    destruct rerr as [err|]; [intros [= <- <-]; by left|].
    destruct (xml_Unmarshal_msg buf) as [[f|] [err|]];
      try (intros [= <- <-]; by left).
    unfold Unmarshal.
    destruct (Flatten fuel buf) as [[out [err|]]|] eqn:E; [| |done].
    + intros [= <- <-]. by left.
    + destruct (xml_Unmarshal out v) as [v1 e1] eqn:Eu. intros [= <- <-].
      right. split; [done|]. split; [done|]. by exists out, e1.
Qed.

(** X9.  [NewRequest] fails exactly when the URL does not parse; it then
    returns the error of [url.Parse] and no request.  The method POST is
    always accepted. *)
Theorem NewRequest_fails_only_on_the_url
    (URL Body : Type) (url_Parse : string -> URL + error)
    (url : string) (body : Body) :
  (forall err,
     (NewRequest URL Body url_Parse url body).2 = Some err <-> url_Parse url = inr err)
  /\ ((NewRequest URL Body url_Parse url body).2 <> None ->
      (NewRequest URL Body url_Parse url body).1 = None)
  /\ (forall u, url_Parse url = inl u ->
                exists req, NewRequest URL Body url_Parse url body = (Some req, None)
                            /\ http.URL_ req = u /\ http.Body_ req = body).
Proof.
  unfold NewRequest, http.NewRequest.
  replace (http.allToken _) with true by (vm_compute; reflexivity).
  destruct (url_Parse url) as [u|e]; simpl.
  - split; [intros err; split; discriminate|]. split; [done|].
    intros u' [= <-]. by eexists.
  - split; [intros err; split; congruence|]. split; [done|]. discriminate.
Qed.

(** ** What lies between sibling elements does not matter *)

Local Abbreviation keep := (fun k : node => if is_elem k then Some (strip k) else None).

Lemma is_elem_strip (t : node) : is_elem (strip t) = is_elem t.
Proof. by destruct t. Qed.

Lemma strip_kids_all_text (kids : list node) :
  forallb (fun k => negb (is_elem k)) kids = true -> strip_kids strip kids = kids.
Proof. unfold strip_kids. by intros ->. Qed.

Lemma strip_kids_some_elem (kids : list node) :
  forallb (fun k => negb (is_elem k)) kids = false ->
  strip_kids strip kids = omap keep kids.
Proof. unfold strip_kids. by intros ->. Qed.

Lemma omap_keep_cons (k : node) (kids : list node) :
  omap keep (k :: kids)
  = if is_elem k then strip k :: omap keep kids else omap keep kids.
Proof. by destruct k. Qed.

Lemma all_text_omap_keep (kids : list node) :
  forallb (fun k => negb (is_elem k)) (omap keep kids)
  = match omap keep kids with [] => true | _ => false end.
Proof.
  induction kids as [|k kids IH]; [done|]. cbn [omap].
  destruct k as [s|tok|st ks]; cbn [is_elem]; try done.
Qed.

Lemma omap_keep_nil (kids : list node) :
  omap keep kids = [] <-> forallb (fun k => negb (is_elem k)) kids = true.
Proof.
  induction kids as [|k kids IH]; [done|]. cbn [omap forallb].
  destruct k as [s|tok|st ks]; cbn [is_elem negb andb]; try done.
Qed.

Lemma all_text_strip_kids (kids : list node) :
  forallb (fun k => negb (is_elem k)) (strip_kids strip kids)
  = forallb (fun k => negb (is_elem k)) kids.
Proof.
  destruct (forallb (fun k => negb (is_elem k)) kids) eqn:E.
  - by rewrite strip_kids_all_text.
  - rewrite strip_kids_some_elem, all_text_omap_keep by done.
    destruct (omap keep kids) eqn:Eo; [|done].
    apply omap_keep_nil in Eo. congruence.
Qed.

(** Dropping what is not an element, and changing the elements in a way
    that does not change what they flatten to, does not change what a
    sequence flattens to. *)
Lemma flat_all_omap_keep (F F' : node -> option string) (kids : list node) :
  (forall start ks, F' (strip (NElem start ks)) = F (NElem start ks)) ->
  (forall s, F (NText s) = Some "") ->
  (forall tok, F (NOther tok) = Some "") ->
  flat_all F' (omap keep kids) = flat_all F kids.
Proof.
  intros He Ht Ho. induction kids as [|k kids IH]; [done|].
  rewrite omap_keep_cons. cbn [flat_all].
  destruct k as [s|tok|st ks]; cbn [is_elem].
  - rewrite Ht, IH. by destruct (flat_all F kids).
  - rewrite Ho, IH. by destruct (flat_all F kids).
  - cbn [flat_all]. by rewrite He, IH.
Qed.

(** [flat] does not see the difference between a tree and the stripped
    tree. *)
Lemma flat_strip (n : nat) (idx : gmap string (list node)) :
  forall t, flat n (strip_kids strip <$> idx) (strip t) = flat n idx t.
Proof.
  induction n as [|n IH]; intros [s|tok|st kids]; try done.
  cbn [strip]. rewrite !flat_S. case_decide; [done|]. cbn zeta.
  set (K := match findHref (xml.SAttr st) with
            | (href, true) => default kids (idx !! href)
            | (_, false) => kids
            end).
  assert (HK : match findHref (xml.SAttr st) with
               | (href, true) =>
                   default (strip_kids strip kids) ((strip_kids strip <$> idx) !! href)
               | (_, false) => strip_kids strip kids
               end = strip_kids strip K).
  { unfold K. destruct (findHref (xml.SAttr st)) as [href []]; [|done].
    rewrite lookup_fmap. by destruct (idx !! href). }
  rewrite HK, all_text_strip_kids.
  destruct (forallb (fun k => negb (is_elem k)) K) eqn:E.
  - by rewrite strip_kids_all_text.
  - rewrite strip_kids_some_elem by done.
    rewrite (flat_all_omap_keep (flat n idx)); [done|..].
    + intros start ks. apply IH.
    + by destruct n.
    + by destruct n.
Qed.

Lemma postnodes_all_text (kids : list node) :
  forallb (fun k => negb (is_elem k)) kids = true -> flat_map postnodes kids = [].
Proof.
  induction kids as [|k kids IH]; [done|]. cbn [forallb flat_map].
  destruct k; cbn [is_elem negb andb]; try done.
Qed.

Lemma postnodes_omap_keep (kids : list node) :
  Forall (fun t => postnodes (strip t) = map strip (postnodes t)) kids ->
  flat_map postnodes (omap keep kids) = map strip (flat_map postnodes kids).
Proof.
  induction 1 as [|k kids Hk Hkids IH]; [done|].
  rewrite omap_keep_cons. cbn [flat_map]. rewrite map_app, <- IH.
  destruct k as [s|tok|st ks]; cbn [is_elem]; try done.
  cbn [flat_map]. by rewrite Hk.
Qed.

Lemma postnodes_strip (t : node) : postnodes (strip t) = map strip (postnodes t).
Proof.
  induction t as [s|tok|st kids IH] using node_ind_kids; try done.
  cbn [strip postnodes]. rewrite map_app. cbn [map strip]. f_equal.
  destruct (forallb (fun k => negb (is_elem k)) kids) eqn:E.
  - rewrite strip_kids_all_text by done. by rewrite postnodes_all_text.
  - rewrite strip_kids_some_elem by done. by apply postnodes_omap_keep.
Qed.

Lemma foldl_record_node_strip (pn : list node) :
  forall idx,
    foldl record_node (strip_kids strip <$> idx) (map strip pn)
    = strip_kids strip <$> foldl record_node idx pn.
Proof.
  induction pn as [|t pn IH]; intros idx; [done|].
  cbn [map foldl]. rewrite <- IH. f_equal.
  destruct t as [s|tok|st kids]; try done.
  cbn [strip record_node]. destruct (findId (xml.SAttr st)) as [id []]; [|done].
  by rewrite fmap_insert.
Qed.

Lemma tree_index_strip (f : list node) :
  tree_index (strip_forest f) = strip_kids strip <$> tree_index f.
Proof.
  unfold tree_index, strip_forest.
  rewrite postnodes_omap_keep by (apply Forall_forall; intros; apply postnodes_strip).
  rewrite <- foldl_record_node_strip. by rewrite fmap_empty.
Qed.

Lemma flat_all_strip_forest (n : nat) (f : list node) :
  flat_all (flat n (tree_index (strip_forest f))) (strip_forest f)
  = flat_all (flat n (tree_index f)) f.
Proof.
  rewrite tree_index_strip. unfold strip_forest.
  apply flat_all_omap_keep.
  - intros start ks. apply flat_strip.
  - by destruct n.
  - by destruct n.
Qed.

(** X10.  Two documents, given as trees that the decoder reads back, whose
    trees are the same once everything but the elements is taken out of the
    top level and out of every element that has child elements (white
    space used for indentation, comments, and any other character data
    between sibling elements), are flattened to the same buffer. *)
Theorem Flatten_ignores_what_lies_between_elements
    (data1 data2 : string) (f1 f2 : list node) (fuel : nat) :
  pending (NewDecoder data1) = flat_map tokens f1 ->
  final (NewDecoder data1) = io_EOF ->
  forallb reparses f1 = true ->
  list_max (map depth f1) < fuel ->
  pending (NewDecoder data2) = flat_map tokens f2 ->
  final (NewDecoder data2) = io_EOF ->
  forallb reparses f2 = true ->
  list_max (map depth f2) < fuel ->
  strip_forest f1 = strip_forest f2 ->
  Flatten fuel data1 = Flatten fuel data2.
Proof.
  intros Hp1 He1 Hr1 Hd1 Hp2 He2 Hr2 Hd2 Hs.
  rewrite (Flatten_flat data1 f1 fuel Hp1 He1 Hr1 Hd1).
  rewrite (Flatten_flat data2 f2 fuel Hp2 He2 Hr2 Hd2).
  by rewrite <- (flat_all_strip_forest fuel f1), <- (flat_all_strip_forest fuel f2), Hs.
Qed.

(** ** References that only go down return *)

Lemma flat_all_returns (idx : gmap string (list node)) (kids : list node) :
  Forall (fun k => exists n, forall m, n <= m -> is_Some (flat m idx k)) kids ->
  exists n, forall m, n <= m -> is_Some (flat_all (flat m idx) kids).
Proof.
  induction 1 as [|k kids [n1 H1] _ [n2 H2]]; [by exists 0|].
  exists (Nat.max n1 n2). intros m Hm. cbn [flat_all].
  destruct (H1 m) as [o ->]; [lia|]. destruct (H2 m) as [os ->]; [lia|]. done.
Qed.

Lemma index_ranked_lookup (idx : gmap string (list node)) (rank : string -> nat)
    (href : string) (kids : list node) :
  index_ranked idx rank = true ->
  idx !! href = Some kids ->
  forallb (ranked idx rank (rank href)) kids = true.
Proof.
  unfold index_ranked. rewrite forallb_forall. intros H Hl.
  apply (H (href, kids)). apply list_elem_of_In. by apply elem_of_map_to_list.
Qed.

Lemma ranked_NElem (idx : gmap string (list node)) (rank : string -> nat) (b : nat)
    (start : xml.StartElement) (kids : list node) :
  ranked idx rank b (NElem start kids) =
  if decide (xml.Local (xml.SName start) = "multiRef") then true
  else
    match findHref (xml.SAttr start) with
    | (href, true) =>
        match idx !! href with
        | Some _ => Nat.ltb (rank href) b
        | None => forallb (ranked idx rank b) kids
        end
    | (_, false) => forallb (ranked idx rank b) kids
    end.
Proof. reflexivity. Qed.

(** With enough fuel [flat] returns on a tree whose references go down in
    rank. *)
Lemma flat_returns (idx : gmap string (list node)) (rank : string -> nat) :
  index_ranked idx rank = true ->
  forall b t,
    ranked idx rank b t = true ->
    exists n, forall m, n <= m -> is_Some (flat m idx t).
Proof.
  intros Hi b. induction b as [b IHb] using lt_wf_ind.
  assert (Hkids : forall b' kids,
            (b' = b \/ b' < b) ->
            Forall (fun k => ranked idx rank b' k = true ->
                             exists n, forall m, n <= m -> is_Some (flat m idx k)) kids ->
            forallb (ranked idx rank b') kids = true ->
            forall start,
            exists n, forall m, n <= m ->
              is_Some
                (if forallb (fun k => negb (is_elem k)) kids
                 then Some (marshal (mkElement start (joined (map markup kids))))
                 else (fun body => marshal (mkElement start body))
                        <$> flat_all (flat m idx) kids)).
  { intros b' kids _ Hall Hr start.
    destruct (forallb (fun k => negb (is_elem k)) kids); [by exists 0|].
    destruct (flat_all_returns idx kids) as [n Hn].
    { rewrite forallb_forall in Hr. rewrite Forall_forall in Hall |- *.
      intros k Hk. apply Hall; [done|]. apply Hr. by apply list_elem_of_In. }
    exists n. intros m Hm. destruct (Hn m Hm) as [o ->]. done. }
  induction t as [s|tok|start kids IHt] using node_ind_kids; intros Hr.
  - exists 0. intros m _. by destruct m.
  - exists 0. intros m _. by destruct m.
  - rewrite ranked_NElem in Hr.
    assert (Hown : forallb (ranked idx rank b) kids = true ->
                   exists n, forall m, n <= m ->
                     is_Some
                       (if forallb (fun k => negb (is_elem k)) kids
                        then Some (marshal (mkElement start (joined (map markup kids))))
                        else (fun body => marshal (mkElement start body))
                               <$> flat_all (flat m idx) kids)).
    { intros Hk. apply (Hkids b); [by left|exact IHt|exact Hk]. }
    assert (Hgoal : exists n, forall m, n <= m ->
              is_Some
                (if decide (xml.Local (xml.SName start) = "multiRef") then Some ""
                 else
                   let kids' :=
                     match findHref (xml.SAttr start) with
                     | (href, true) => default kids (idx !! href)
                     | (_, false) => kids
                     end in
                   if forallb (fun k => negb (is_elem k)) kids'
                   then Some (marshal (mkElement start (joined (map markup kids'))))
                   else (fun body => marshal (mkElement start body))
                          <$> flat_all (flat m idx) kids')).
    { case_decide; [by exists 0|]. cbn zeta.
      destruct (findHref (xml.SAttr start)) as [href []]; [|by apply Hown].
      destruct (idx !! href) as [tk|] eqn:El; [|by apply Hown].
      cbn [default]. apply Nat.ltb_lt in Hr.
      apply (Hkids (rank href)); [by right| |by apply (index_ranked_lookup idx rank href)].
      apply Forall_forall. intros k _. by apply IHb. }
    destruct Hgoal as [n Hn]. exists (S n). intros m Hm.
    destruct m as [|m]; [lia|]. rewrite flat_S. apply Hn. lia.
Qed.

(** X11.  [Flatten] returns on every document, given as trees that the
    decoder reads back, whose references only go down: when the ids can be
    given ranks such that the content bound to an id refers to ids of
    lower rank only, there is an amount of fuel from which on [Flatten]
    returns a buffer and no error. *)
Theorem Flatten_returns_when_references_go_down
    (data : string) (f : list node) (rank : string -> nat) (b : nat) :
  pending (NewDecoder data) = flat_map tokens f ->
  final (NewDecoder data) = io_EOF ->
  forallb reparses f = true ->
  index_ranked (tree_index f) rank = true ->
  forallb (ranked (tree_index f) rank b) f = true ->
  exists n, forall fuel, n <= fuel ->
    exists out, Flatten fuel data = Some (out, None).
Proof.
  intros Hp Hfin Hr Hi Hb.
  destruct (flat_all_returns (tree_index f) f) as [n Hn].
  { rewrite forallb_forall in Hb. apply Forall_forall. intros k Hk.
    apply (flat_returns _ rank Hi b). apply Hb. by apply list_elem_of_In. }
  exists (Nat.max n (S (list_max (map depth f)))). intros fuel Hfuel.
  rewrite (Flatten_flat data f fuel Hp Hfin Hr) by lia.
  destruct (Hn fuel) as [out ->]; [lia|]. by exists out.
Qed.

End Theory.

(** ** The HTTP request *)

(** C10.  A request that [NewRequest] returns has the method POST and a
    SOAPAction header that is present with the empty value, as the claim
    says.  Its content type does not name the character set: the value of
    Content-Type is text/xml and nothing more, and utf-8 is the value of a
    header of its own, which [NewRequest] sets under the name charset.
    Headers are stored under their canonical keys, and there are no
    others. *)
Theorem NewRequest_sets_the_soap_headers
    (URL Body : Type) (url_Parse : string -> URL + error)
    (url : string) (body : Body) (req : http.Request URL Body) (err : option error) :
  NewRequest URL Body url_Parse url body = (Some req, err) ->
  err = None
  /\ http.Method req = "POST"
  /\ http.Header_ req !! http.CanonicalMIMEHeaderKey "SOAPAction" = Some [""]
  /\ http.Header_Get (http.Header_ req) "SOAPAction" = ""
  /\ http.Header_Get (http.Header_ req) "Content-Type" = "text/xml"
  /\ http.Header_Get (http.Header_ req) "charset" = "utf-8"
  /\ dom (http.Header_ req) = {["Soapaction"; "Content-Type"; "Charset"]}
  /\ url_Parse url = inl (http.URL_ req)
  /\ http.Body_ req = body
  /\ http.Header_ req !! "Content-Type" = Some ["text/xml"]
  /\ http.Header_ req !! "Charset" = Some ["utf-8"]
  /\ http.Header_Get (http.Header_ req) "Content-Type" <> "text/xml; charset=utf-8".
Proof.
  unfold NewRequest, http.NewRequest.
  replace (http.allToken _) with true by (vm_compute; reflexivity).
  destruct (url_Parse url) as [u|e]; [|discriminate].
  intros [= <- <-]. repeat split. vm_compute. discriminate.
Qed.

Lemma NewRequest_sets_the_soap_headers_witness :
  exists req,
    NewRequest string string Docs.url_Parse "http://example.com/soap" "<a/>"
    = (Some req, None)
    /\ http.Method req = "POST"
    /\ http.Header_Get (http.Header_ req) "Content-Type" = "text/xml"
    /\ http.Header_ req !! "Charset" = Some ["utf-8"].
Proof.
  eexists. split; [vm_compute; reflexivity|].
  pose proof (NewRequest_sets_the_soap_headers string string Docs.url_Parse
                "http://example.com/soap" "<a/>" _ None
                ltac:(vm_compute; reflexivity)) as H.
  split; [apply H|]. split; apply H.
Defined.

(** ** The code on concrete documents *)

(** C1.  On the document of the single substitution [Flatten] succeeds
    with any fuel from 3 on; in what it returns the content of sessionId is
    123456, and no start or end tag is named multiRef. *)
Theorem single_substitution :
  (forall k : nat,
     GoXML.Flatten (3 + k) Docs.single = Some (Docs.single_flat, None))
  /\ no_element_named "multiRef" (pending (GoXML.NewDecoder Docs.single_flat)) = true
  /\ final (GoXML.NewDecoder Docs.single_flat) = io_EOF
  /\ exists envelope header body,
       GoXML.elements Docs.single_flat = ([envelope], None)
       /\ GoXML.Children envelope = [header; body]
       /\ GoXML.Children header = [Docs.el "sessionId" [("href", "#id0")] "123456"]
       /\ GoXML.Children body = [].
Proof.
  split; [|split; [|split]].
  - intros k. apply (Flatten_mono GoXML.NewDecoder GoXML.EscapeText 3); [lia|].
    vm_compute. reflexivity.
  - vm_compute. reflexivity.
  - vm_compute. reflexivity.
  - eexists _, _, _. split; [vm_compute; reflexivity|].
    split; [vm_compute; reflexivity|].
    split; vm_compute; reflexivity.
Qed.

(** [Docs.unreadable_refs] and [Docs.mixed_target] have two sibling
    elements named multiRef, each referenced by a placeholder of its own.
    On the first, [Flatten] returns the content stored for [r] as it is:
    both multiRef elements are in the output and both placeholders are
    empty.  On the second, the placeholder [p] gets the child element of
    its target and not the character data around it. *)
Lemma multiRef_kept_and_text_lost :
  pending (GoXML.NewDecoder Docs.unreadable_refs)
  = [xml.TStartElement (Docs.start "r" []);
     xml.TStartElement (Docs.start "a" [("b", dquote)]);
     xml.TEndElement (xml.mkName "" "a");
     xml.TStartElement (Docs.start "p" [("href", "#id0")]);
     xml.TEndElement (xml.mkName "" "p");
     xml.TStartElement (Docs.start "s" [("href", "#id1")]);
     xml.TEndElement (xml.mkName "" "s");
     xml.TStartElement (Docs.start "multiRef" [("id", "id0")]); xml.TCharData "one";
     xml.TEndElement (xml.mkName "" "multiRef");
     xml.TStartElement (Docs.start "multiRef" [("id", "id1")]); xml.TCharData "two";
     xml.TEndElement (xml.mkName "" "multiRef");
     xml.TEndElement (xml.mkName "" "r")]
  /\ final (GoXML.NewDecoder Docs.unreadable_refs) = io_EOF
  /\ GoXML.elements Docs.unreadable_refs = ([Docs.unreadable_refs_r], None)
  /\ (forall k,
        GoXML.Flatten (1 + k) Docs.unreadable_refs
        = Some ("<r><a b=" +:+ GoXML.q dquote +:+ "></a><p href=" +:+ GoXML.q "#id0"
                +:+ "></p><s href=" +:+ GoXML.q "#id1" +:+ "></s><multiRef id="
                +:+ GoXML.q "id0" +:+ ">one</multiRef><multiRef id="
                +:+ GoXML.q "id1" +:+ ">two</multiRef></r>", None))
  /\ pending (GoXML.NewDecoder Docs.mixed_target)
     = [xml.TStartElement (Docs.start "r" []);
        xml.TStartElement (Docs.start "p" [("href", "#id0")]);
        xml.TEndElement (xml.mkName "" "p");
        xml.TStartElement (Docs.start "s" [("href", "#id1")]);
        xml.TEndElement (xml.mkName "" "s");
        xml.TStartElement (Docs.start "multiRef" [("id", "id0")]); xml.TCharData "one";
        xml.TStartElement (Docs.start "x" []); xml.TEndElement (xml.mkName "" "x");
        xml.TCharData "two"; xml.TEndElement (xml.mkName "" "multiRef");
        xml.TStartElement (Docs.start "multiRef" [("id", "id1")]); xml.TCharData "t";
        xml.TEndElement (xml.mkName "" "multiRef");
        xml.TEndElement (xml.mkName "" "r")]
  /\ final (GoXML.NewDecoder Docs.mixed_target) = io_EOF
  /\ (exists mref target,
        GoXML.buildMRef 3 Docs.mixed_target = Some (mref, None)
        /\ mref !! "id0" = Some target
        /\ Data target = "one<x></x>two")
  /\ (forall k,
        GoXML.Flatten (3 + k) Docs.mixed_target
        = Some ("<r><p href=" +:+ GoXML.q "#id0" +:+ "><x /></p><s href="
                +:+ GoXML.q "#id1" +:+ ">t</s></r>", None)).
Proof.
  do 3 (split; [vm_compute; reflexivity|]).
  split.
  { intros k. apply (Flatten_mono GoXML.NewDecoder GoXML.EscapeText 1); [lia|].
    vm_compute. reflexivity. }
  do 2 (split; [vm_compute; reflexivity|]).
  split.
  { exists (<["id0" := Docs.el "multiRef" [("id", "id0")] "one<x></x>two"]>
              (<["id1" := Docs.el "multiRef" [("id", "id1")] "t"]> ∅)),
           (Docs.el "multiRef" [("id", "id0")] "one<x></x>two").
    split; [vm_compute; reflexivity|]. split; vm_compute; reflexivity. }
  intros k. apply (Flatten_mono GoXML.NewDecoder GoXML.EscapeText 3); [lia|].
  vm_compute. reflexivity.
Qed.

Lemma multiRef_is_dropped_and_inlined_witness :
  GoXML.buildMRef 3 Docs.two_refs = Some (Docs.two_refs_index, None)
  /\ GoXML.flattenXML 2 (Docs.el "multiRef" [("id", "id0")] "one") Docs.two_refs_index
     = Some ("", None)
  /\ GoXML.flattenXML 2 (Docs.el "a" [("href", "#id0")] "") Docs.two_refs_index
     = Some ("<a href=" +:+ GoXML.q "#id0" +:+ ">one</a>", None)
  /\ GoXML.flattenXML 2 (Docs.el "b" [("href", "#id1")] "") Docs.two_refs_index
     = Some ("<b href=" +:+ GoXML.q "#id1" +:+ "><x>two</x></b>", None)
  /\ GoXML.Flatten 4 Docs.two_refs = Some (Docs.two_refs_flat, None)
  /\ GoXML.Flatten 4 Docs.mixed_target = Some (Docs.mixed_target_flat, None)
  /\ GoXML.flattenXML 1 Docs.unreadable_refs_r ∅
     = Some ("<r>" +:+ Data Docs.unreadable_refs_r +:+ "</r>", None).
Proof.
  destruct (multiRef_is_dropped_and_inlined GoXML.NewDecoder GoXML.EscapeText 1
              Docs.two_refs_index) as (Hdrop & _ & Hsite & _).
  destruct (multiRef_is_dropped_and_inlined GoXML.NewDecoder GoXML.EscapeText 4
              Docs.two_refs_index) as (_ & _ & _ & Hdoc & _).
  destruct (multiRef_is_dropped_and_inlined GoXML.NewDecoder GoXML.EscapeText 0 ∅)
    as (_ & _ & _ & _ & _ & _ & _ & _ & Hraw).
  split; [vm_compute; reflexivity|].
  split; [apply Hdrop; reflexivity|].
  split; [|split; [|split; [|split]]].
  - unfold GoXML.flattenXML.
    rewrite (Hsite (Docs.el "a" [("href", "#id0")] "") "id0"
               (Docs.el "multiRef" [("id", "id0")] "one")
               ltac:(vm_compute; discriminate)
               ltac:(vm_compute; reflexivity)
               ltac:(vm_compute; reflexivity)).
    vm_compute. reflexivity.
  - unfold GoXML.flattenXML.
    rewrite (Hsite (Docs.el "b" [("href", "#id1")] "") "id1"
               (Docs.el "multiRef" [("id", "id1")] "<x>two</x>")
               ltac:(vm_compute; discriminate)
               ltac:(vm_compute; reflexivity)
               ltac:(vm_compute; reflexivity)).
    vm_compute. reflexivity.
  - unfold GoXML.Flatten.
    rewrite (Hdoc Docs.two_refs Docs.two_refs_tree
               ltac:(vm_compute; reflexivity) ltac:(vm_compute; reflexivity)
               ltac:(vm_compute; reflexivity) ltac:(vm_compute; lia)).
    vm_compute. reflexivity.
  - unfold GoXML.Flatten.
    rewrite (Hdoc Docs.mixed_target Docs.mixed_target_tree
               ltac:(vm_compute; reflexivity) ltac:(vm_compute; reflexivity)
               ltac:(vm_compute; reflexivity) ltac:(vm_compute; lia)).
    vm_compute. reflexivity.
  - unfold GoXML.flattenXML.
    rewrite (Hraw Docs.unreadable_refs_r []
               (SyntaxError "expected attribute name in element")
               ltac:(vm_compute; discriminate)
               ltac:(vm_compute; reflexivity)).
    vm_compute. reflexivity.
Defined.

(** The element of [Docs.dangling] has an href whose id no element
    carries; [Flatten] returns the element with its content [t], not with
    empty content. *)
Lemma dangling_href_keeps_content :
  GoXML.elements Docs.dangling = ([Docs.el "a" [("href", "#X")] "t"], None)
  /\ findHref (Attr (Docs.el "a" [("href", "#X")] "t")) = ("X", true)
  /\ GoXML.buildMRef 1 Docs.dangling = Some (∅, None)
  /\ GoXML.Flatten 1 Docs.dangling = Some (Docs.dangling, None)
  /\ ~ (exists el, GoXML.elements Docs.dangling = ([el], None)
                   /\ GoXML.Flatten 1 Docs.dangling
                      = Some (marshal (mkElement (Start el) ""), None)).
Proof.
  split; [vm_compute; reflexivity|].
  split; [vm_compute; reflexivity|].
  split; [vm_compute; reflexivity|].
  split; [vm_compute; reflexivity|].
  intros (el & He & Hf). vm_compute in He. injection He as <-.
  vm_compute in Hf. discriminate.
Qed.

Lemma missing_id_keeps_own_content_witness :
  GoXML.flattenXML 1 Docs.placeholder ∅
  = Some ("<p href=" +:+ GoXML.q "#missing" +:+ " />", None).
Proof.
  destruct (missing_id_keeps_own_content GoXML.NewDecoder GoXML.EscapeText 0
              Docs.placeholder ∅ "missing"
              ltac:(vm_compute; discriminate)
              ltac:(vm_compute; reflexivity)
              ltac:(reflexivity)) as (_ & _ & H & _).
  destruct (H ltac:(vm_compute; reflexivity)) as [Hf Hm].
  unfold GoXML.flattenXML. rewrite Hf, (Hm ltac:(reflexivity)).
  vm_compute. reflexivity.
Defined.

Lemma mismatched_end_tag_is_rejected_witness :
  first_mismatch [] (pending (GoXML.NewDecoder Docs.mismatched))
  = Some (xml.mkName "" "a")
  /\ GoXML.Flatten 0 Docs.mismatched
     = Some ("", Some (errorString "Unexpected end element a")).
Proof.
  split; [vm_compute; reflexivity|].
  apply (mismatched_end_tag_is_rejected GoXML.NewDecoder GoXML.EscapeText
           unit (fun _ v => (v, None)) Docs.mismatched (xml.mkName "" "a")
           ltac:(vm_compute; reflexivity)).
Defined.

(** In [Docs.mutual] the elements A and B refer to each other, and in
    [Docs.inside_multiRef] the placeholder [item] refers to the element it
    lies in; [Flatten] returns on both, with any fuel from 2 on. *)
Lemma reference_cycles_that_return :
  (exists r A B,
     GoXML.elements Docs.mutual = ([r], None) /\ GoXML.Children r = [A; B]
     /\ findId (Attr A) = ("a", true) /\ findHref (Attr A) = ("b", true)
     /\ findId (Attr B) = ("b", true) /\ findHref (Attr B) = ("a", true))
  /\ (forall k, GoXML.Flatten (2 + k) Docs.mutual = Some (Docs.mutual_flat, None))
  /\ (exists body target item,
        GoXML.elements Docs.inside_multiRef = ([body], None)
        /\ GoXML.Children body = [target] /\ GoXML.Children target = [item]
        /\ findId (Attr target) = ("x", true) /\ findHref (Attr item) = ("x", true))
  /\ (forall k, GoXML.Flatten (3 + k) Docs.inside_multiRef = Some ("<Body />", None)).
Proof.
  split; [|split; [|split]].
  - eexists _, _, _. split; [vm_compute; reflexivity|].
    split; [vm_compute; reflexivity|]. repeat split.
  - intros k. apply (Flatten_mono GoXML.NewDecoder GoXML.EscapeText 2); [lia|].
    vm_compute. reflexivity.
  - eexists _, _, _. split; [vm_compute; reflexivity|].
    split; [vm_compute; reflexivity|].
    split; [vm_compute; reflexivity|]. repeat split.
  - intros k. apply (Flatten_mono GoXML.NewDecoder GoXML.EscapeText 3); [lia|].
    vm_compute. reflexivity.
Qed.

Lemma entered_reference_cycle_never_returns_witness :
  GoXML.elements Docs.self_ref = ([Docs.self_ref_a], None)
  /\ forall fuel, GoXML.Flatten fuel Docs.self_ref = None.
Proof.
  split; [vm_compute; reflexivity|].
  apply (entered_reference_cycle_never_returns GoXML.NewDecoder GoXML.EscapeText
           Docs.self_ref [Docs.self_ref_a] Docs.self_ref_index 2
           [Docs.self_ref_a; Docs.self_ref_b]);
    vm_compute; reflexivity.
Defined.



(** In [Docs.unreadable_id] the element multiRef carries the id [x]; it
    lies in the content of [r], which cannot be read back, and the index
    pass returns the empty index.  In [Docs.prefixed_id] the element [e]
    carries the attribute id with the value [q]; the index binds [e] under
    [p], the value of its attribute [x:id], and binds nothing under [q]. *)
Lemma index_pass_misses_ids :
  pending (GoXML.NewDecoder Docs.unreadable_id)
  = [xml.TStartElement (Docs.start "r" []);
     xml.TStartElement (Docs.start "a" [("b", dquote)]);
     xml.TEndElement (xml.mkName "" "a");
     xml.TStartElement (Docs.start "multiRef" [("id", "x")]); xml.TCharData "t";
     xml.TEndElement (xml.mkName "" "multiRef");
     xml.TEndElement (xml.mkName "" "r")]
  /\ final (GoXML.NewDecoder Docs.unreadable_id) = io_EOF
  /\ GoXML.elements Docs.unreadable_id = ([Docs.unreadable_id_r], None)
  /\ GoXML.Children Docs.unreadable_id_r = []
  /\ (forall k, GoXML.buildMRef (1 + k) Docs.unreadable_id = Some (∅, None))
  /\ GoXML.elements Docs.prefixed_id
     = ([Docs.el "r" [] ("<e x:id=" +:+ GoXML.q "p" +:+ " id=" +:+ GoXML.q "q"
                         +:+ ">t</e>")], None)
  /\ GoXML.Children (Docs.el "r" [] ("<e x:id=" +:+ GoXML.q "p" +:+ " id="
                                     +:+ GoXML.q "q" +:+ ">t</e>"))
     = [Docs.prefixed_id_e]
  /\ In (xml.mkAttr (xml.mkName "" "id") "q") (Attr Docs.prefixed_id_e)
  /\ exists mref,
       (forall k, GoXML.buildMRef (2 + k) Docs.prefixed_id = Some (mref, None))
       /\ mref !! "q" = None
       /\ mref !! "p" = Some Docs.prefixed_id_e.
Proof.
  do 4 (split; [vm_compute; reflexivity|]).
  split.
  { intros k. apply (buildMRef_mono GoXML.NewDecoder GoXML.EscapeText 1); [lia|].
    vm_compute. reflexivity. }
  do 2 (split; [vm_compute; reflexivity|]).
  split; [vm_compute; tauto|].
  exists (<["p" := Docs.prefixed_id_e]> ∅).
  split; [|split; vm_compute; reflexivity].
  intros k. apply (buildMRef_mono GoXML.NewDecoder GoXML.EscapeText 2); [lia|].
  vm_compute. reflexivity.
Qed.

Lemma index_pass_is_post_order_last_wins_witness :
  (exists order,
     map (fun el => xml.Local (Name el)) order = ["x"; "z"; "y"; "w"; "r"]
     /\ GoXML.buildMRef 3 Docs.twice = Some (foldl record ∅ order, None)
     /\ foldl record ∅ order !! "k" = Some Docs.twice_z)
  /\ visitOrder GoXML.NewDecoder GoXML.EscapeText 1 Docs.unreadable_id_r
     = Some [Docs.unreadable_id_r]
  /\ findId (Attr Docs.prefixed_id_e) = ("p", true).
Proof.
  pose proof (index_pass_is_post_order_last_wins GoXML.NewDecoder GoXML.EscapeText
                3 Docs.twice _ ltac:(vm_compute; reflexivity))
    as (_ & H & _ & _ & Hid).
  pose proof (index_pass_is_post_order_last_wins GoXML.NewDecoder GoXML.EscapeText
                0 Docs.twice _ ltac:(vm_compute; reflexivity))
    as (_ & _ & _ & Hun & _).
  set (o := visitAll _ _) in H. vm_compute in o. subst o. cbv beta iota in H.
  destruct H as (Hb & Hl & _).
  split; [|split].
  - eexists. split; [|split; [exact Hb|]].
    + vm_compute. reflexivity.
    + rewrite Hl. vm_compute. reflexivity.
  - apply (Hun Docs.unreadable_id_r []
             (SyntaxError "expected attribute name in element")).
    vm_compute. reflexivity.
  - rewrite Hid. vm_compute. reflexivity.
Defined.

(** In [Docs.sign_only] the element [p] carries an href whose value begins
    with the sign, the id after the sign is the empty text, and the index
    binds the empty id to [e], whose content is [t]; the content of [p] is
    not replaced.  In [Docs.prefixed_href_first] the element [p] carries
    the href [#a] and the index binds [a], and the content of [p] is not
    replaced either.  In [Docs.placeholder_named_multiRef] the placeholder
    is not written at all. *)
Lemma href_with_the_sign_alone_is_not_substituted :
  (exists r p e mref,
     GoXML.elements Docs.sign_only = ([r], None)
     /\ GoXML.Children r = [p; e]
     /\ findAttr (Attr p) "" "href" = Some (xml.mkAttr (xml.mkName "" "href") "#")
     /\ GoXML.buildMRef 2 Docs.sign_only = Some (mref, None)
     /\ mref !! "" = Some e /\ Data e = "t"
     /\ GoXML.flattenXML 1 p mref = Some ("<p href=" +:+ GoXML.q "#" +:+ " />", None)
     /\ GoXML.Flatten 2 Docs.sign_only = Some (Docs.sign_only_flat, None))
  /\ (exists r p e mref,
        GoXML.elements Docs.prefixed_href_first = ([r], None)
        /\ GoXML.Children r = [p; e]
        /\ In (xml.mkAttr (xml.mkName "" "href") "#a") (Attr p)
        /\ GoXML.buildMRef 2 Docs.prefixed_href_first = Some (mref, None)
        /\ mref !! "a" = Some e /\ Data e = "t"
        /\ GoXML.Flatten 2 Docs.prefixed_href_first
           = Some (Docs.prefixed_href_first_flat, None))
  /\ GoXML.Flatten 2 Docs.placeholder_named_multiRef
     = Some ("<r><e id=" +:+ GoXML.q "a" +:+ ">t</e></r>", None).
Proof.
  split; [|split].
  - eexists _, _, _, _. split; [vm_compute; reflexivity|].
    split; [vm_compute; reflexivity|].
    split; [vm_compute; reflexivity|].
    split; [vm_compute; reflexivity|].
    split; [vm_compute; reflexivity|].
    split; [vm_compute; reflexivity|].
    split; vm_compute; reflexivity.
  - eexists _, _, _, _. split; [vm_compute; reflexivity|].
    split; [vm_compute; reflexivity|].
    split; [vm_compute; tauto|].
    split; [vm_compute; reflexivity|].
    split; [vm_compute; reflexivity|].
    split; vm_compute; reflexivity.
  - vm_compute. reflexivity.
Qed.

Lemma href_substitution_witness :
  GoXML.flattenXML 1 Docs.sessionId Docs.single_index
  = Some ("<sessionId href=" +:+ GoXML.q "#id0" +:+ ">123456</sessionId>", None).
Proof.
  destruct (href_substitution GoXML.NewDecoder GoXML.EscapeText 0
              Docs.sessionId Docs.single_index ltac:(vm_compute; discriminate))
    as (_ & Hsub & _).
  destruct (Hsub "id0" (Docs.el "multiRef" [("id", "id0")] "123456")
              ltac:(vm_compute; reflexivity) ltac:(vm_compute; reflexivity))
    as (_ & Hleaf & _).
  unfold GoXML.flattenXML. rewrite (Hleaf ltac:(vm_compute; reflexivity)).
  vm_compute. reflexivity.
Defined.

(** In [Docs.quote_in_attribute] the content stored for [r] cannot be read
    back: deriving the children of [r] fails with a syntax error.
    [Flatten] returns no error, and returns that content as it is. *)
Lemma failure_to_derive_children_is_not_reported :
  GoXML.elements Docs.quote_in_attribute = ([Docs.quote_in_attribute_r], None)
  /\ GoXML.elements (Data Docs.quote_in_attribute_r)
     = ([], Some (SyntaxError "expected attribute name in element"))
  /\ forall k,
       GoXML.Flatten (1 + k) Docs.quote_in_attribute
       = Some ("<r>" +:+ Data Docs.quote_in_attribute_r +:+ "</r>", None).
Proof.
  split; [vm_compute; reflexivity|]. split; [vm_compute; reflexivity|].
  intros k. apply (Flatten_mono GoXML.NewDecoder GoXML.EscapeText 1); [lia|].
  vm_compute. reflexivity.
Qed.

Lemma only_errors_of_the_buffer_are_reported_witness :
  GoXML.elements Docs.truncated = ([], Some io_EOF)
  /\ GoXML.Flatten 0 Docs.truncated = Some ("", Some io_EOF)
  /\ GoXML.elements (Data Docs.unreadable_id_r)
     = ([], Some (SyntaxError "expected attribute name in element"))
  /\ walkMultiRef GoXML.NewDecoder GoXML.EscapeText 1 Docs.unreadable_id_r ∅
     = Some (∅, None)
  /\ GoXML.flattenXML 1 Docs.unreadable_id_r ∅
     = Some ("<r><a b=" +:+ GoXML.q dquote +:+ "></a><multiRef id=" +:+ GoXML.q "x"
             +:+ ">t</multiRef></r>", None).
Proof.
  destruct (only_errors_of_the_buffer_are_reported GoXML.NewDecoder GoXML.EscapeText
              0 Docs.truncated) as (H & _ & _ & _ & Hwalk & Hflat).
  split; [vm_compute; reflexivity|].
  split; [apply (H [] io_EOF); vm_compute; reflexivity|].
  split; [vm_compute; reflexivity|]. split.
  - destruct (Hwalk Docs.unreadable_id_r ∅ []
                (SyntaxError "expected attribute name in element")
                ltac:(vm_compute; reflexivity)) as [_ Hw].
    rewrite Hw. vm_compute. reflexivity.
  - destruct (Hflat Docs.unreadable_id_r ∅ []
                (SyntaxError "expected attribute name in element")
                ltac:(vm_compute; discriminate)
                ltac:(vm_compute; reflexivity)) as [_ Hf].
    unfold GoXML.flattenXML. rewrite Hf. vm_compute. reflexivity.
Defined.

(** ** More of the code on concrete documents *)

Lemma elements_succeeds_iff_balanced_witness :
  still_open [] (pending (GoXML.NewDecoder Docs.truncated))
  = [xml.mkName "" "b"; xml.mkName "" "a"]
  /\ GoXML.elements Docs.truncated = ([], Some io_EOF).
Proof.
  split; [vm_compute; reflexivity|].
  destruct (elements_succeeds_iff_balanced GoXML.NewDecoder GoXML.EscapeText
              Docs.truncated) as [_ H].
  apply (H ltac:(vm_compute; reflexivity) ltac:(vm_compute; discriminate)).
Defined.

Lemma no_start_tag_no_output_witness :
  pending (GoXML.NewDecoder Docs.no_element)
  = [xml.TCharData "hello"; xml.TEndElement (xml.mkName "" "a"); xml.TComment " c "]
  /\ GoXML.elements Docs.no_element = ([], None)
  /\ forall fuel, GoXML.Flatten fuel Docs.no_element = Some ("", None).
Proof.
  split; [vm_compute; reflexivity|].
  apply (no_start_tag_no_output GoXML.NewDecoder GoXML.EscapeText Docs.no_element
           ltac:(vm_compute; reflexivity) ltac:(vm_compute; reflexivity)).
Defined.

Lemma elements_of_a_tree_witness :
  GoXML.elements Docs.pretty
  = ([Docs.el "a" [("x", "1")] " <b>x &amp; y</b>  <c></c> "], None).
Proof.
  destruct (elements_of_a_tree GoXML.NewDecoder GoXML.EscapeText
              Docs.pretty Docs.pretty_tree
              ltac:(vm_compute; reflexivity) ltac:(vm_compute; reflexivity)
              ltac:(vm_compute; reflexivity)) as [H _].
  unfold GoXML.elements. rewrite H. vm_compute. reflexivity.
Defined.

Lemma flattenXML_keeps_the_start_tag_witness :
  exists rest,
    GoXML.flattenXML 1 Docs.sessionId Docs.single_index
    = Some ("<sessionId href=" +:+ GoXML.q "#id0" +:+ rest, None).
Proof.
  destruct (flattenXML_keeps_the_start_tag GoXML.NewDecoder GoXML.EscapeText
              1 Docs.sessionId Docs.single_index
              ("<sessionId href=" +:+ GoXML.q "#id0" +:+ ">123456</sessionId>") None
              ltac:(vm_compute; reflexivity)) as (_ & _ & H).
  destruct (H ltac:(vm_compute; discriminate)) as [rest Hr].
  exists rest.
  transitivity
    (Some ("<sessionId href=" +:+ GoXML.q "#id0" +:+ ">123456</sessionId>",
           @None error)); [vm_compute; reflexivity|].
  rewrite Hr. reflexivity.
Defined.

Lemma only_multiRef_children_leave_an_empty_tag_witness :
  GoXML.flattenXML 2 Docs.body_with_note Docs.single_index = Some ("<Body />", None).
Proof.
  apply (only_multiRef_children_leave_an_empty_tag GoXML.NewDecoder GoXML.EscapeText
           0 Docs.body_with_note Docs.single_index).
  - vm_compute. discriminate.
  - vm_compute. discriminate.
  - vm_compute. repeat constructor.
Defined.

Lemma Unmarshal_decodes_what_Flatten_returns_witness :
  Unmarshal GoXML.NewDecoder GoXML.EscapeText string (fun out _ => (out, None))
    3 Docs.single ""
  = Some (Docs.single_flat, None)
  /\ GoXML.Flatten 3 Docs.single = Some (Docs.single_flat, None).
Proof.
  assert (H : Unmarshal GoXML.NewDecoder GoXML.EscapeText string
                (fun out _ => (out, None)) 3 Docs.single ""
              = Some (Docs.single_flat, None)) by (vm_compute; reflexivity).
  split; [exact H|].
  destruct (Unmarshal_decodes_what_Flatten_returns GoXML.NewDecoder GoXML.EscapeText
              string (fun out _ => (out, None)) 3 Docs.single "" _ _ H)
    as [(out & Hf & [= <-])|(err & _ & _ & [=] & _)].
  exact Hf.
Defined.

Lemma Parse_returns_the_fault_witness :
  Parse GoXML.NewDecoder GoXML.EscapeText string (fun out _ => (out, None))
    (fun _ => (Some Docs.a_fault, None)) 0 (Docs.self_ref, None) "before"
  = Some ("before", Some (fault Docs.a_fault))
  /\ Parse GoXML.NewDecoder GoXML.EscapeText string (fun out _ => (out, None))
       (fun _ => (Some Docs.a_fault, None)) 7 (Docs.self_ref, None) "before"
     = Some ("before", Some (fault Docs.a_fault)).
Proof.
  destruct (Parse_returns_the_fault GoXML.NewDecoder GoXML.EscapeText string
              (fun out _ => (out, None)) (fun _ => (Some Docs.a_fault, None))
              Docs.self_ref "before") as [H _].
  split; apply H; reflexivity.
Defined.

Lemma NewRequest_fails_only_on_the_url_witness :
  (NewRequest string string Docs.url_Parse GoXML.newline "<a/>").2
  = Some (errorString ("parse " +:+ GoXML.q (Docs.backslash +:+ "n")
                       +:+ ": net/url: invalid control character in URL"))
  /\ (NewRequest string string Docs.url_Parse GoXML.newline "<a/>").1 = None.
Proof.
  destruct (NewRequest_fails_only_on_the_url string string Docs.url_Parse
              GoXML.newline "<a/>") as (H1 & H2 & _).
  assert (He : (NewRequest string string Docs.url_Parse GoXML.newline "<a/>").2
               = Some (errorString
                         ("parse " +:+ GoXML.q (Docs.backslash +:+ "n")
                          +:+ ": net/url: invalid control character in URL")))
    by (apply H1; vm_compute; reflexivity).
  split; [exact He|]. apply H2. rewrite He. discriminate.
Defined.

Lemma Flatten_ignores_what_lies_between_elements_witness :
  GoXML.Flatten 3 Docs.pretty = GoXML.Flatten 3 Docs.pretty_flat.
Proof.
  apply (Flatten_ignores_what_lies_between_elements GoXML.NewDecoder GoXML.EscapeText
           Docs.pretty Docs.pretty_flat Docs.pretty_tree Docs.pretty_stripped_tree 3);
    vm_compute; first [reflexivity|lia].
Defined.

Lemma Flatten_returns_when_references_go_down_witness :
  GoXML.Flatten 4 Docs.chain = Some (Docs.chain_flat, None)
  /\ exists n, forall fuel, n <= fuel ->
       exists out, GoXML.Flatten fuel Docs.chain = Some (out, None).
Proof.
  split; [vm_compute; reflexivity|].
  apply (Flatten_returns_when_references_go_down GoXML.NewDecoder GoXML.EscapeText
           Docs.chain Docs.chain_tree Docs.chain_rank 2);
    vm_compute; reflexivity.
Defined.
